(** * Thumbnail Lambda: a shallow embedding of the two handlers

    - [Docs]  : [src/docs/lambda-function.py] (per-record try/except,
                colour-mode normalisation, records_processed in the body)
    - [Lamcode] : [src/lamcode.py] (one try/except around the whole batch)

    Both are written over the same Python-level vocabulary: decoded JSON
    values, Python exceptions, the S3/SNS clients as an environment whose
    answers may depend on every call issued before, and the parts of
    [os.path] and Pillow that the handlers call. *)

From Stdlib Require Import String Ascii List ZArith Lia Bool.
Import ListNotations.
Open Scope string_scope.
Open Scope list_scope.
Open Scope Z_scope.
Set Warnings "-register-all".

(* ------------------------------------------------------------------ *)
(** ** Python values and exceptions *)

(** The event is a decoded JSON document, i.e. Python dicts, lists,
    strings, numbers, booleans and None.  The keys of a dict are unique. *)
Inductive pyval : Type :=
| PNone
| PBool (b : bool)
| PInt (z : Z)
| PStr (s : string)
| PList (l : list pyval)
| PDict (d : list (string * pyval)).

Fixpoint assoc (k : string) (d : list (string * pyval)) : option pyval :=
  match d with
  | [] => None
  | (k', v) :: d' => if String.eqb k k' then Some v else assoc k d'
  end.

(** The exceptions the handlers can meet. *)
Inductive exn : Type :=
| KeyError (k : string)
| TypeError
| AttributeError
| ParamValidationError          (* botocore refuses a non-string parameter *)
| ClientError (code : string)   (* an error answer of S3 or SNS *)
| UnidentifiedImageError        (* Image.open cannot identify the bytes *)
| OSError                       (* the JPEG writer refuses the image mode *)
| ZeroDivisionError.

(** [str(e)] of an exception, as embedded in the response bodies. *)
Definition exn_str (e : exn) : string :=
  match e with
  | KeyError k => "'" ++ k ++ "'"
  | TypeError => "TypeError"
  | AttributeError => "AttributeError"
  | ParamValidationError => "Parameter validation failed"
  | ClientError c => c
  | UnidentifiedImageError => "cannot identify image file"
  | OSError => "cannot write mode as JPEG"
  | ZeroDivisionError => "division by zero"
  end.

(* ------------------------------------------------------------------ *)
(** ** Images (Pillow's [Image] objects, as far as the handlers use them) *)

Inductive mode : Type := M1 | ML | MLA | MP | MPA | MRGB | MRGBA | MCMYK | MI | MF.

Definition mode_eqb (a b : mode) : bool :=
  match a, b with
  | M1, M1 | ML, ML | MLA, MLA | MP, MP | MPA, MPA | MRGB, MRGB
  | MRGBA, MRGBA | MCMYK, MCMYK | MI, MI | MF, MF => true
  | _, _ => false
  end.

(** Pixels are stored row-major, one list of band values per pixel; for
    mode P the single band is a palette index and [im_palette] holds the
    palette entries as RGBA quadruples (transparency applied). *)
Record image : Type := mkImage {
  im_mode : mode;
  im_width : Z;
  im_height : Z;
  im_pixels : list (list Z);
  im_palette : list (list Z)
}.

Definition bytes := list Byte.byte.

(* ------------------------------------------------------------------ *)
(** ** Collaborators and the effect monad *)

(** Notifications, identified by the handler and template that sends them. *)
Inductive note : Type :=
| NSuccess (object_key thumbnail_key : string)   (* Docs, line 136 *)
| NRecordError (err : exn) (bucket key : pyval)  (* Docs, line 172 *)
| NCritical (err : exn)                          (* Docs, line 222 *)
| LSuccess (key thumbnail_key : string)          (* Lamcode, line 45 *)
| LError (err : exn).                            (* Lamcode, line 56 *)

(** Requests sent to S3 and SNS, in the order they are issued. *)
Inductive call : Type :=
| GetObject (bucket key : string)
| PutObject (bucket key : string) (body : bytes)
| Publish (n : note).

Definition trace := list call.

(** The outside world.  Each client answer may depend on all calls made
    before it.  The pixel kernels of Pillow (LANCZOS resampling, the JPEG
    encoder) are given as functions; no claim depends on their values. *)
Record env : Type := mkEnv {
  s3_get : trace -> string -> string -> bytes + exn;
  s3_put : trace -> string -> string -> option exn;
  sns_publish : trace -> note -> option exn;
  decode : bytes -> option image;
  resample : image -> Z -> Z -> list (list Z);
  encode_jpeg : image -> Z -> bool -> bytes;
  thumbnail_bucket : string;
  now : string
}.

Inductive res (A : Type) : Type :=
| Ok (a : A)
| Raise (e : exn).
Arguments Ok {A} a.
Arguments Raise {A} e.

(** Python code: threads the trace of issued requests, may raise. *)
Definition M (A : Type) : Type := trace -> trace * res A.

Definition ret {A} (a : A) : M A := fun tr => (tr, Ok a).
Definition raise {A} (e : exn) : M A := fun tr => (tr, Raise e).
Definition bind {A B} (m : M A) (f : A -> M B) : M B :=
  fun tr =>
    let (tr', r) := m tr in
    match r with
    | Ok a => f a tr'
    | Raise e => (tr', Raise e)
    end.
(** [try: m  except Exception as e: h e] *)
Definition try_except {A} (m : M A) (h : exn -> M A) : M A :=
  fun tr =>
    let (tr', r) := m tr in
    match r with
    | Ok a => (tr', Ok a)
    | Raise e => h e tr'
    end.

Notation "x <- m ;; k" := (bind m (fun x => k))
  (at level 61, m at next level, right associativity).
Notation "m ;;; k" := (bind m (fun _ => k))
  (at level 61, right associativity).

Definition lift_res {A} (r : res A) : M A := fun tr => (tr, r).

(** [for x in l: body x] *)
Fixpoint for_each {A} (body : A -> M unit) (l : list A) : M unit :=
  match l with
  | [] => ret tt
  | x :: l' => body x ;;; for_each body l'
  end.

(** [v[k]] *)
Definition getitem (v : pyval) (k : string) : M pyval :=
  match v with
  | PDict d => match assoc k d with Some x => ret x | None => raise (KeyError k) end
  | _ => raise TypeError
  end.

(** [v.get(k, default)] *)
Definition dict_get (v : pyval) (k : string) (dflt : pyval) : M pyval :=
  match v with
  | PDict d => ret (match assoc k d with Some x => x | None => dflt end)
  | _ => raise AttributeError
  end.

(** [for x in v] : the values a Python iteration visits. *)
Definition py_iter (v : pyval) : M (list pyval) :=
  match v with
  | PList l => ret l
  | PDict d => ret (map (fun kv => PStr (fst kv)) d)
  | PStr s => ret (map (fun c => PStr (String c EmptyString)) (list_ascii_of_string s))
  | _ => raise TypeError
  end.

(** [len(v)] *)
Definition py_len (v : pyval) : M Z :=
  match v with
  | PList l => ret (Z.of_nat (length l))
  | PDict d => ret (Z.of_nat (length d))
  | PStr s => ret (Z.of_nat (String.length s))
  | _ => raise TypeError
  end.

(** A str argument ([os.path] raises TypeError on anything else). *)
Definition as_str (v : pyval) : M string :=
  match v with PStr s => ret s | _ => raise TypeError end.

(** [s3_client.get_object(Bucket=b, Key=k)['Body'].read()] *)
Definition get_object (e : env) (b k : pyval) : M bytes :=
  match b, k with
  | PStr b', PStr k' =>
      fun tr => (tr ++ [GetObject b' k'],
                 match s3_get e tr b' k' with
                 | inl data => Ok data
                 | inr err => Raise err
                 end)
  | _, _ => raise ParamValidationError
  end.

(** [s3_client.put_object(Bucket=THUMBNAIL_BUCKET, Key=k, Body=body, ...)] *)
Definition put_object (e : env) (k : string) (body : bytes) : M unit :=
  fun tr => (tr ++ [PutObject (thumbnail_bucket e) k body],
             match s3_put e tr (thumbnail_bucket e) k with
             | None => Ok tt
             | Some err => Raise err
             end).

(** [sns_client.publish(TopicArn=SNS_TOPIC_ARN, Subject=..., Message=...)] *)
Definition publish (e : env) (n : note) : M unit :=
  fun tr => (tr ++ [Publish n],
             match sns_publish e tr n with
             | None => Ok tt
             | Some err => Raise err
             end).

(* ------------------------------------------------------------------ *)
(** ** [os.path] (posixpath) *)

Definition sep : ascii := "/"%char.
Definition extsep : ascii := "."%char.

(** [p.rfind(c)]: highest index of [c] in [p], or -1. *)
Fixpoint rfind_from (c : ascii) (p : list ascii) (i acc : Z) : Z :=
  match p with
  | [] => acc
  | x :: p' => rfind_from c p' (i + 1) (if Ascii.eqb x c then i else acc)
  end.
Definition rfind (c : ascii) (p : list ascii) : Z := rfind_from c p 0 (-1).

(** The loop of [genericpath._splitext] that skips the leading dots of
    the file name:
<<
        filenameIndex = sepIndex + 1
        while filenameIndex < dotIndex:
            if p[filenameIndex:filenameIndex+1] != extsep:
                return p[:dotIndex], p[dotIndex:]
            filenameIndex += 1
>>  *)
Fixpoint skip_leading_dots (p : list ascii) (filenameIndex dotIndex : Z) (fuel : nat)
  : option (list ascii * list ascii) :=
  match fuel with
  | O => None
  | S fuel' =>
      if negb (match nth_error p (Z.to_nat filenameIndex) with
               | Some c => Ascii.eqb c extsep
               | None => false
               end)
      then Some (firstn (Z.to_nat dotIndex) p, skipn (Z.to_nat dotIndex) p)
      else skip_leading_dots p (filenameIndex + 1) dotIndex fuel'
  end.

(** [os.path.splitext] *)
Definition splitext (p : list ascii) : list ascii * list ascii :=
  let sepIndex := rfind sep p in
  let dotIndex := rfind extsep p in
  if sepIndex <? dotIndex then
    match skip_leading_dots p (sepIndex + 1) dotIndex
            (Z.to_nat (dotIndex - (sepIndex + 1))) with
    | Some r => r
    | None => (p, [])
    end
  else (p, []).

(** [os.path.basename] *)
Definition basename (p : list ascii) : list ascii :=
  skipn (Z.to_nat (rfind sep p + 1)) p.

Definition str_splitext_root (s : string) : string :=
  string_of_list_ascii (fst (splitext (list_ascii_of_string s))).
Definition str_basename (s : string) : string :=
  string_of_list_ascii (basename (list_ascii_of_string s)).

(* ------------------------------------------------------------------ *)
(** ** Pillow: colour-mode normalisation (Docs, lines 67-73)

<<
    if image.mode in ('RGBA', 'LA', 'P'):
        background = Image.new('RGB', image.size, (255, 255, 255))
        if image.mode == 'P':
            image = image.convert('RGBA')
        background.paste(image, mask=image.split()[-1] if image.mode == 'RGBA' else None)
        image = background
>>  *)

(** [Image.new('RGB', size, colour)] *)
Definition image_new_rgb (w h : Z) (colour : list Z) : image :=
  mkImage MRGB w h (repeat colour (Z.to_nat (w * h))) [].

(** [image.convert('RGBA')] of a P image: a palette lookup (entries that
    Pillow does not hold read as opaque black). *)
Definition convert_P_RGBA (im : image) : image :=
  mkImage MRGBA (im_width im) (im_height im)
    (map (fun px => nth (Z.to_nat (hd 0 px)) (im_palette im) [0; 0; 0; 255])
         (im_pixels im))
    [].

(** [image.split()[-1]]: the last band. *)
Definition last_band (im : image) : list Z :=
  map (fun px => last px 0) (im_pixels im).

(** Pillow stores 1- and 2-band 8-bit images in 32-bit cells; an LA pixel
    [(l, a)] is held as [l, l, l, a] (Unpack.c, [unpackLA]). *)
Definition raw32 (m : mode) (px : list Z) : list Z :=
  match m with
  | MLA => [nth 0 px 0; nth 0 px 0; nth 0 px 0; nth 1 px 0]
  | MRGB => px ++ [255]
  | _ => px
  end.

(** Paste.c: [DIV255(a) = ((a + 128) >> 8 + (a + 128)) >> 8] and
    [BLEND(m, in1, in2) = DIV255(in1 * (255 - m) + in2 * m)]. *)
Definition div255 (a : Z) : Z :=
  let tmp := a + 128 in Z.shiftr (Z.shiftr tmp 8 + tmp) 8.
Definition blend (m in1 in2 : Z) : Z := div255 (in1 * (255 - m) + in2 * m).

Fixpoint zip_with3 {A B C D} (f : A -> B -> C -> D)
  (la : list A) (lb : list B) (lc : list C) : list D :=
  match la, lb, lc with
  | a :: la', b :: lb', c :: lc' => f a b c :: zip_with3 f la' lb' lc'
  | _, _, _ => []
  end.

(** [background.paste(im, mask=mask)] for an RGB [background] of the size
    of [im], with [im] of mode RGB, LA or RGBA (Pillow pastes those modes
    onto RGB without converting them). With a mask ([paste_mask_L]) each
    stored byte is blended; without one the stored cells are copied. An
    RGB image shows the first three bytes of each cell. *)
Definition paste_rgb (background im : image) (mask : option (list Z)) : image :=
  let out :=
    match mask with
    | Some m =>
        zip_with3 (fun dst src a =>
                     firstn 3 (map (fun '(o, i) => blend a o i)
                                   (combine (raw32 MRGB dst) (raw32 (im_mode im) src))))
                  (im_pixels background) (im_pixels im) m
    | None => map (fun src => firstn 3 (raw32 (im_mode im) src)) (im_pixels im)
    end in
  mkImage MRGB (im_width background) (im_height background) out [].

Definition docs_normalize (img : image) : image :=
  if mode_eqb (im_mode img) MRGBA || mode_eqb (im_mode img) MLA
     || mode_eqb (im_mode img) MP then
    let background := image_new_rgb (im_width img) (im_height img) [255; 255; 255] in
    let img := if mode_eqb (im_mode img) MP then convert_P_RGBA img else img in
    paste_rgb background img
      (if mode_eqb (im_mode img) MRGBA then Some (last_band img) else None)
  else img.

(* ------------------------------------------------------------------ *)
(** ** Pillow: [image.thumbnail(THUMBNAIL_SIZE, Image.Resampling.LANCZOS)]

    [Image.thumbnail] (Pillow >= 9.1, the versions with [Image.Resampling]):
<<
        def round_aspect(number, key):
            return max(min(math.floor(number), math.ceil(number), key=key), 1)
        x, y = provided_size
        if x >= self.width and y >= self.height:
            return None
        aspect = self.width / self.height
        if x / y >= aspect:
            x = round_aspect(y * aspect, key=lambda n: abs(aspect - n / y))
        else:
            y = round_aspect(x / aspect,
                             key=lambda n: 0 if n == 0 else abs(aspect - x / n))
        ...
        if self.size != final_size:
            im = self.resize(final_size, resample, ...)
>>
    The real-number arithmetic is computed exactly over Z: with [y, h > 0],
    [x / y >= w / h] iff [x * h >= y * w]; [|w/h - n/y|] compares as
    [|w*y - n*h|] (common factor [1 / (h*y)]); [|w/h - x/n|] compares as
    [|w*n - x*h| / n] (common factor [1/h]).  [min] returns its first
    argument unless the second has a strictly smaller key. *)

Definition floor_div (a b : Z) : Z := a / b.
Definition ceil_div (a b : Z) : Z := - ((- a) / b).

(** [round_aspect(y * aspect, key=lambda n: abs(aspect - n / y))] *)
Definition round_aspect_x (y w h : Z) : Z :=
  let f := floor_div (y * w) h in
  let c := ceil_div (y * w) h in
  let key n := Z.abs (w * y - n * h) in
  Z.max (if key c <? key f then c else f) 1.

(** [round_aspect(x / aspect, key=lambda n: 0 if n == 0 else abs(aspect - x / n))] *)
Definition round_aspect_y (x w h : Z) : Z :=
  let f := floor_div (x * h) w in
  let c := ceil_div (x * h) w in
  (* key c < key f, keys compared after multiplying both by h * c * f *)
  let smaller :=
    if f =? 0 then false
    else if c =? 0 then true
    else Z.abs (w * c - x * h) * f <? Z.abs (w * f - x * h) * c in
  Z.max (if smaller then c else f) 1.

(** [preserve_aspect_ratio()]: [None] when the image already fits. *)
Definition preserve_aspect_ratio (x y w h : Z) : res (option (Z * Z)) :=
  if (w <=? x) && (h <=? y) then Ok None
  else if h =? 0 then Raise ZeroDivisionError
  else if y * w <=? x * h then Ok (Some (round_aspect_x y w h, y))
  else Ok (Some (x, round_aspect_y x w h)).

Definition THUMBNAIL_SIZE : Z * Z := (200, 200).
Definition THUMBNAIL_QUALITY : Z := 80.

(** [image.thumbnail(size, LANCZOS)]: in place; resizing keeps the mode. *)
Definition thumbnail (e : env) (img : image) : res image :=
  match preserve_aspect_ratio (fst THUMBNAIL_SIZE) (snd THUMBNAIL_SIZE)
          (im_width img) (im_height img) with
  | Raise err => Raise err
  | Ok None => Ok img
  | Ok (Some (x, y)) =>
      if (x =? im_width img) && (y =? im_height img) then Ok img
      else Ok (mkImage (im_mode img) x y (resample e img x y) (im_palette img))
  end.

(** [image.save(buf, format='JPEG', quality=q, optimize=o)]: the JPEG
    plugin writes modes 1, L, RGB and CMYK and raises OSError for others. *)
Definition jpeg_writable (m : mode) : bool :=
  match m with M1 | ML | MRGB | MCMYK => true | _ => false end.

Definition jpeg_save (e : env) (img : image) (quality : Z) (optimize : bool) : res bytes :=
  if jpeg_writable (im_mode img) then Ok (encode_jpeg e img quality optimize)
  else Raise OSError.

(** [Image.open(BytesIO(data))] *)
Definition image_open (e : env) (data : bytes) : res image :=
  match decode e data with Some im => Ok im | None => Raise UnidentifiedImageError end.

(* ------------------------------------------------------------------ *)
(** ** Responses *)

(** The dict returned to Lambda; [body] is the value given to [json.dumps]. *)
Record response : Type := mkResponse {
  statusCode : Z;
  body : pyval
}.

(** [json.loads(response['body'])['records_processed']], when present. *)
Definition records_processed (r : response) : option pyval :=
  match body r with PDict d => assoc "records_processed" d | _ => None end.

(* ------------------------------------------------------------------ *)
(** ** [src/docs/lambda-function.py] *)

(** Lines 87-88:
<<
    filename_without_ext = os.path.splitext(object_key)[0]
    thumbnail_key = f"thumbnails/{os.path.basename(filename_without_ext)}_thumb.jpg"
>>  *)
Definition docs_thumbnail_key (object_key : string) : string :=
  "thumbnails/" ++ str_basename (str_splitext_root object_key) ++ "_thumb.jpg".

(** The body of the per-record [try] (lines 48-142). Logging, the message
    texts and the [json.dumps(event)] of line 43 are not modelled: they
    cannot raise on a decoded JSON event. *)
Definition docs_process (e : env) (record : pyval) : M unit :=
  s3 <- getitem record "s3";; bkt <- getitem s3 "bucket";;
  bucket_name <- getitem bkt "name";;
  s3' <- getitem record "s3";; obj <- getitem s3' "object";;
  object_key <- getitem obj "key";;
  image_data <- get_object e bucket_name object_key;;
  img <- lift_res (image_open e image_data);;
  let img := docs_normalize img in
  img <- lift_res (thumbnail e img);;
  buf <- lift_res (jpeg_save e img THUMBNAIL_QUALITY true);;
  key <- as_str object_key;;
  let thumbnail_key := docs_thumbnail_key key in
  put_object e thumbnail_key buf ;;;
  publish e (NSuccess key thumbnail_key).

(** [record.get('s3', {}).get(k1, {}).get(k2, 'Unknown')] *)
Definition get_chain (record : pyval) (k1 k2 : string) : M pyval :=
  s3 <- dict_get record "s3" (PDict []);;
  v <- dict_get s3 k1 (PDict []);;
  dict_get v k2 (PStr "Unknown").

(** The per-record [except] (lines 144-179): the error message (lines
    159-160), the subject (line 174), then an unguarded publish. *)
Definition docs_record_error (e : env) (record : pyval) (record_error : exn) : M unit :=
  bucket <- get_chain record "bucket" "name";;
  key <- get_chain record "object" "key";;
  subject_key <- get_chain record "object" "key";;
  publish e (NRecordError record_error bucket subject_key).

Definition docs_record (e : env) (record : pyval) : M unit :=
  try_except (docs_process e record) (docs_record_error e record).

Definition docs_ok_body (e : env) (n : Z) : pyval :=
  PDict [("message"%string, PStr "Thumbnail generation completed successfully");
         ("records_processed"%string, PInt n);
         ("timestamp"%string, PStr (now e))].

Definition docs_error_body (e : env) (main_error : exn) : pyval :=
  PDict [("error"%string, PStr "Lambda execution failed");
         ("message"%string, PStr (exn_str main_error));
         ("timestamp"%string, PStr (now e))].

(** The outer [try] of [lambda_handler] (lines 42-192). *)
Definition docs_main (e : env) (event : pyval) : M response :=
  records <- dict_get event "Records" (PList []);;
  items <- py_iter records;;
  for_each (docs_record e) items ;;;
  records' <- dict_get event "Records" (PList []);;
  n <- py_len records';;
  ret (mkResponse 200 (docs_ok_body e n)).

(** The outer [except] (lines 194-238); its publish is guarded. *)
Definition docs_fatal (e : env) (main_error : exn) : M response :=
  try_except (publish e (NCritical main_error)) (fun _ => ret tt) ;;;
  ret (mkResponse 500 (docs_error_body e main_error)).

(** [lambda_handler] (lines 27-238) *)
Definition docs_handler (e : env) (event : pyval) : M response :=
  try_except (docs_main e event) (docs_fatal e).

(** [str(n)] of an int [n >= 0]: its decimal digits ([n] has at most
    [log2 n + 1] of them). *)
Definition digit_char (d : Z) : ascii := ascii_of_nat (48 + Z.to_nat d).

Fixpoint decimal_digits (fuel : nat) (n : Z) (acc : list ascii) : list ascii :=
  match fuel with
  | O => acc
  | S fuel' =>
      let acc' := digit_char (n mod 10) :: acc in
      if n <? 10 then acc' else decimal_digits fuel' (n / 10) acc'
  end.

Definition str_of_Z (n : Z) : string :=
  string_of_list_ascii (decimal_digits (S (Z.to_nat (Z.log2 n))) n []).

(** [a / d] rounded to the nearest integer, ties to even. *)
Definition round_half_even_div (a d : Z) : Z :=
  let q := a / d in
  let r := a mod d in
  if d <? 2 * r then q + 1
  else if 2 * r <? d then q
  else if Z.even q then q else q + 1.

(** [float(n)] of an int [n >= 0]: rounded to 53 significant bits, ties
    to even.  [n / 2**k] in Python is the correctly rounded quotient, that
    is [float(n) / 2**k] exactly. *)
Definition float_of_int (n : Z) : Z :=
  if n <? 2 ^ 53 then n
  else let s := Z.log2 n - 52 in round_half_even_div n (2 ^ s) * 2 ^ s.

(** A number of hundredths [h >= 0] written with two decimals. *)
Definition fixed2 (h : Z) : string :=
  str_of_Z (h / 100) ++
  String "." (String (digit_char (h mod 100 / 10)) (String (digit_char (h mod 10)) EmptyString)).

(** [f"{num / den:.2f}"] for the exact value [num / den >= 0]: Python
    rounds the exact binary value of the float, ties to even. *)
Definition format_2f (num den : Z) : string :=
  fixed2 (round_half_even_div (100 * num) den).

(** Lines 241-249; [buffer.getbuffer().nbytes] is the length of the
    buffer's contents.  It is called, at line 123, only to write the text
    of the success notification, whose text is not modelled in [note]. *)
Definition thumbnail_size_text (buffer : bytes) : string :=
  let size_bytes := Z.of_nat (length buffer) in
  if size_bytes <? 1024 then str_of_Z size_bytes ++ " B"
  else if size_bytes <? 1024 * 1024 then format_2f (float_of_int size_bytes) 1024 ++ " KB"
  else format_2f (float_of_int size_bytes) (1024 * 1024) ++ " MB".

(* ------------------------------------------------------------------ *)
(** ** [src/lamcode.py] *)

(** Line 34: [thumbnail_key = f"thumbnails/{os.path.splitext(key)[0]}_thumb.jpg"] *)
Definition lam_thumbnail_key (key : string) : string :=
  "thumbnails/" ++ str_splitext_root key ++ "_thumb.jpg".

(** The loop body (lines 20-51). *)
Definition lam_process (e : env) (record : pyval) : M unit :=
  s3 <- getitem record "s3";; bkt <- getitem s3 "bucket";;
  bucket <- getitem bkt "name";;
  s3' <- getitem record "s3";; obj <- getitem s3' "object";;
  key <- getitem obj "key";;
  image_data <- get_object e bucket key;;
  img <- lift_res (image_open e image_data);;
  img <- lift_res (thumbnail e img);;
  buf <- lift_res (jpeg_save e img 80 false);;
  k <- as_str key;;
  let thumbnail_key := lam_thumbnail_key k in
  put_object e thumbnail_key buf ;;;
  publish e (LSuccess k thumbnail_key).

(** The [try] of [lambda_handler] (lines 19-53). *)
Definition lam_main (e : env) (event : pyval) : M response :=
  records <- getitem event "Records";;
  items <- py_iter records;;
  for_each (lam_process e) items ;;;
  ret (mkResponse 200 (PStr "Thumbnails generated successfully!")).

(** The [except] (lines 54-61); its publish is unguarded. *)
Definition lam_fatal (e : env) (err : exn) : M response :=
  publish e (LError err) ;;;
  ret (mkResponse 500 (PStr ("Error: " ++ exn_str err))).

(** [lambda_handler] (lines 17-61) *)
Definition lam_handler (e : env) (event : pyval) : M response :=
  try_except (lam_main e event) (lam_fatal e).

(* ------------------------------------------------------------------ *)
(** ** Shapes of inputs and sample inputs *)

(** An S3 notification record for [s3://b/k]. *)
Definition s3_record (b k : string) : pyval :=
  PDict [("s3", PDict [("bucket", PDict [("name", PStr b)]);
                       ("object", PDict [("key", PStr k)])])].

Definition s3_event (records : list pyval) : pyval := PDict [("Records", PList records)].

(** A record on which the [.get] chains of the per-record [except] do not
    raise: a dict whose ["s3"] entry, ["bucket"] and ["object"] entries are
    dicts where present. *)
Definition dict_or_absent (v : option pyval) : bool :=
  match v with None | Some (PDict _) => true | Some _ => false end.

Definition record_dict_shaped (record : pyval) : bool :=
  match record with
  | PDict d =>
      match assoc "s3" d with
      | None => true
      | Some (PDict s3) => dict_or_absent (assoc "bucket" s3) && dict_or_absent (assoc "object" s3)
      | Some _ => false
      end
  | _ => false
  end.

(** SNS accepts every per-record failure notification of [Docs]. *)
Definition accepts_record_errors (e : env) : Prop :=
  forall tr err b k, sns_publish e tr (NRecordError err b k) = None.

(** A world where S3 misses the key [missing], SNS rejects the notes
    selected by [sns_rejects], and every object decodes as [img]. *)
Definition sample_env (missing : string) (sns_rejects : note -> bool) (img : image) : env :=
  mkEnv (fun _ _ k => if String.eqb k missing then inr (ClientError "NoSuchKey") else inl [])
        (fun _ _ _ => None)
        (fun _ n => if sns_rejects n then Some (ClientError "AuthorizationError") else None)
        (fun _ => Some img)
        (fun _ _ _ => [])
        (fun _ _ _ => [])
        "thumbs" "2026-10-14T00:00:00".

Definition photo : image := mkImage MRGB 400 300 [] [].

(** An 8-bit channel value. *)
Definition byte_range (c : Z) : bool := (0 <=? c) && (c <=? 255).

(** An RGBA image as Pillow decodes it: [w * h] pixels of four 8-bit bands. *)
Definition rgba_well_formed (img : image) : bool :=
  Nat.eqb (length (im_pixels img)) (Z.to_nat (im_width img * im_height img)) &&
  forallb (fun px => Nat.eqb (length px) 4 && forallb byte_range px) (im_pixels img).

(** A 2x1 RGBA image: one fully transparent pixel, one opaque pixel. *)
Definition rgba_sample : image := mkImage MRGBA 2 1 [[0; 0; 0; 0]; [10; 20; 30; 255]] [].

(** A 2x1 LA image: one fully transparent black pixel. *)
Definition la_sample : image := mkImage MLA 2 1 [[0; 0]; [100; 255]] [].

Definition rejects_none (n : note) : bool := false.
Definition rejects_all (n : note) : bool := true.
Definition rejects_record_errors (n : note) : bool :=
  match n with NRecordError _ _ _ => true | _ => false end.
Definition rejects_successes (n : note) : bool :=
  match n with NSuccess _ _ | LSuccess _ _ => true | _ => false end.

(* ------------------------------------------------------------------ *)
(** ** Properties of runs *)

(** The record [r] names the object [s3://b/k]:
    [r['s3']['bucket']['name'] == b] and [r['s3']['object']['key'] == k]. *)
Definition names_object (r : pyval) (b k : string) : Prop :=
  exists d s3 bkt obj, r = PDict d /\ assoc "s3" d = Some (PDict s3) /\
    assoc "bucket" s3 = Some (PDict bkt) /\ assoc "name" bkt = Some (PStr b) /\
    assoc "object" s3 = Some (PDict obj) /\ assoc "key" obj = Some (PStr k).

(** One of the records of [event['Records']] names [s3://b/k]. *)
Definition event_names (event : pyval) (b k : string) : Prop :=
  exists d l r, event = PDict d /\ assoc "Records" d = Some (PList l) /\ In r l /\
    names_object r b k.

(** The requests a handler may issue on [event]: fetch an object the event
    names, upload to the thumbnail bucket under the key derived from such
    an object key, announce the success of such a key. *)
Definition docs_request_ok (e : env) (named : string -> string -> Prop) (c : call) : Prop :=
  match c with
  | GetObject b k => named b k
  | PutObject b k _ =>
      b = thumbnail_bucket e /\ exists b0 k0, named b0 k0 /\ k = docs_thumbnail_key k0
  | Publish (NSuccess k tk) => (exists b0, named b0 k) /\ tk = docs_thumbnail_key k
  | Publish _ => True
  end.

Definition lam_request_ok (e : env) (named : string -> string -> Prop) (c : call) : Prop :=
  match c with
  | GetObject b k => named b k
  | PutObject b k _ =>
      b = thumbnail_bucket e /\ exists b0 k0, named b0 k0 /\ k = lam_thumbnail_key k0
  | Publish (LSuccess k tk) => (exists b0, named b0 k) /\ tk = lam_thumbnail_key k
  | Publish _ => True
  end.

(** [m] only appends requests satisfying [P] to the trace. *)
Definition extends_with (P : call -> Prop) {A} (m : M A) : Prop :=
  forall tr, exists ext, fst (m tr) = tr ++ ext /\ Forall P ext.





(** An event that is no dict, or whose [Records] entry is present but
    cannot be iterated (JSON null, a boolean or a number). *)
Definition records_unusable (event : pyval) : bool :=
  match event with
  | PDict d =>
      match assoc "Records" d with
      | Some (PNone | PBool _ | PInt _) => true
      | _ => false
      end
  | _ => true
  end.


(** [P x = true] for [x = lo, lo + 1, ..., lo + n - 1]. *)
Fixpoint all_upto (P : Z -> bool) (n : nat) (lo : Z) : bool :=
  match n with
  | O => true
  | S n' => P lo && all_upto P n' (lo + 1)
  end.

(* ------------------------------------------------------------------ *)
(** ** Lemmas on the monad *)

Lemma bind_ok_inv {A B} (m : M A) (f : A -> M B) tr tr' b :
  bind m f tr = (tr', Ok b) ->
  exists a tr1, m tr = (tr1, Ok a) /\ f a tr1 = (tr', Ok b).
Proof.
  unfold bind. destruct (m tr) as [tr1 [a | err]]; intro H.
  - eauto.
  - discriminate H.
Qed.

Lemma bind_ok {A B} (m : M A) (f : A -> M B) tr tr1 a :
  m tr = (tr1, Ok a) -> bind m f tr = f a tr1.
Proof. unfold bind. intros ->. reflexivity. Qed.

Lemma bind_raise {A B} (m : M A) (f : A -> M B) tr tr1 err :
  m tr = (tr1, Raise err) -> bind m f tr = (tr1, Raise err).
Proof. unfold bind. intros ->. reflexivity. Qed.

Lemma try_except_ok {A} (m : M A) h tr tr1 a :
  m tr = (tr1, Ok a) -> try_except m h tr = (tr1, Ok a).
Proof. unfold try_except. intros ->. reflexivity. Qed.

Lemma try_except_raise {A} (m : M A) h tr tr1 err :
  m tr = (tr1, Raise err) -> try_except m h tr = h err tr1.
Proof. unfold try_except. intros ->. reflexivity. Qed.

(** A loop whose every iteration returns runs them all, in order. *)
Lemma for_each_all_ok {A} (f : A -> M unit) (l : list A) :
  (forall x tr, In x l -> snd (f x tr) = Ok tt) ->
  forall tr, for_each f l tr = (fold_left (fun t x => fst (f x t)) l tr, Ok tt).
Proof.
  induction l as [| x l IH]; intros Hok tr; [reflexivity |].
  simpl. unfold bind.
  specialize (Hok x tr (or_introl eq_refl)) as Hx.
  destruct (f x tr) as [tr1 r] eqn:Hf. simpl in Hx. subst r.
  apply IH. intros y t Hy. apply Hok. right. exact Hy.
Qed.

Lemma for_each_app {A} (f : A -> M unit) (l1 l2 : list A) tr :
  for_each f (l1 ++ l2) tr = bind (for_each f l1) (fun _ => for_each f l2) tr.
Proof.
  revert tr. induction l1 as [| x l1 IH]; intro tr; [reflexivity |].
  simpl. unfold bind. destruct (f x tr) as [tr1 [[] | err]]; [| reflexivity].
  specialize (IH tr1). unfold bind in IH. exact IH.
Qed.

Lemma length_list_ascii_of_string (s : string) :
  length (list_ascii_of_string s) = String.length s.
Proof. induction s; simpl; congruence. Qed.

(** [len(v)] counts what [for x in v] visits. *)
Lemma py_len_py_iter (v : pyval) tr items :
  py_iter v tr = (tr, Ok items) -> py_len v tr = (tr, Ok (Z.of_nat (length items))).
Proof.
  destruct v; simpl; intro H; inversion H; subst; try reflexivity.
  - rewrite length_map, length_list_ascii_of_string. reflexivity.
  - rewrite length_map. reflexivity.
Qed.

(* ------------------------------------------------------------------ *)
(** ** C10: the Docs handler always returns a 200 or 500 response *)

Lemma docs_main_shape e event tr tr' r :
  docs_main e event tr = (tr', Ok r) -> exists n, r = mkResponse 200 (docs_ok_body e n).
Proof.
  unfold docs_main. intro H.
  repeat (apply bind_ok_inv in H; destruct H as [? [? [_ H]]]).
  unfold ret in H. inversion H. eauto.
Qed.

Lemma docs_fatal_result e err tr :
  docs_fatal e err tr = (tr ++ [Publish (NCritical err)], Ok (mkResponse 500 (docs_error_body e err))).
Proof.
  unfold docs_fatal, try_except, publish, bind.
  destruct (sns_publish e tr (NCritical err)); reflexivity.
Qed.

(** C10: for every event, world and prior trace, [lambda_handler] of
    src/docs/lambda-function.py returns normally (no exception reaches the
    invoker, whatever SNS answers to the fatal notification) with status
    200 or 500 and a dict body for [json.dumps]. *)
Theorem docs_handler_always_responds (e : env) (event : pyval) (tr : trace) :
  exists tr' r, docs_handler e event tr = (tr', Ok r) /\
    (statusCode r = 200 \/ statusCode r = 500) /\ exists d, body r = PDict d.
Proof.
  unfold docs_handler, try_except.
  destruct (docs_main e event tr) as [tr1 [r | err]] eqn:Hm.
  - destruct (docs_main_shape _ _ _ _ _ Hm) as [n ->].
    exists tr1. eexists. split; [reflexivity |].
    split; [left; reflexivity | eexists; reflexivity].
  - rewrite docs_fatal_result. do 2 eexists. split; [reflexivity |].
    simpl. split; [right; reflexivity | eexists; reflexivity].
Qed.

(* ------------------------------------------------------------------ *)
(** ** C3: a completed loop answers 200 with the number of records *)

Lemma docs_loop_completed (e : env) (event : pyval) (tr tr' : trace)
  (records : pyval) (items : list pyval) :
  dict_get event "Records" (PList []) tr = (tr, Ok records) ->
  py_iter records tr = (tr, Ok items) ->
  for_each (docs_record e) items tr = (tr', Ok tt) ->
  docs_handler e event tr =
    (tr', Ok (mkResponse 200 (docs_ok_body e (Z.of_nat (length items))))).
Proof.
  intros Hr Hi Hl.
  unfold docs_handler. apply try_except_ok. unfold docs_main.
  rewrite (bind_ok _ _ _ _ _ Hr), (bind_ok _ _ _ _ _ Hi), (bind_ok _ _ _ _ _ Hl).
  assert (Hr' : dict_get event "Records" (PList []) tr' = (tr', Ok records)).
  { destruct event; simpl in Hr |- *; inversion Hr; reflexivity. }
  assert (Hi' : py_iter records tr' = (tr', Ok items)).
  { destruct records; simpl in Hi |- *; inversion Hi; reflexivity. }
  rewrite (bind_ok _ _ _ _ _ Hr'), (bind_ok _ _ _ _ _ (py_len_py_iter _ _ _ Hi')).
  reflexivity.
Qed.


(** C3: whenever the [Records] value is read and iterated without raising
    and the per-record loop returns, the Docs handler answers status 200
    with [records_processed] equal to the number N of records iterated,
    whatever happened to the individual records. *)
Theorem docs_completed_loop_counts_records (e : env) (event : pyval) (tr tr' : trace)
  (records : pyval) (items : list pyval) :
  dict_get event "Records" (PList []) tr = (tr, Ok records) ->
  py_iter records tr = (tr, Ok items) ->
  for_each (docs_record e) items tr = (tr', Ok tt) ->
  docs_handler e event tr =
    (tr', Ok (mkResponse 200 (docs_ok_body e (Z.of_nat (length items))))).
Proof. exact (docs_loop_completed e event tr tr' records items). Qed.

Lemma docs_completed_loop_counts_records_witness :
  docs_handler (sample_env "a.png" rejects_none photo)
      (s3_event [s3_record "src" "a.png"; s3_record "src" "b.png"]) [] =
    ([GetObject "src" "a.png";
      Publish (NRecordError (ClientError "NoSuchKey") (PStr "src") (PStr "a.png"));
      GetObject "src" "b.png";
      PutObject "thumbs" "thumbnails/b_thumb.jpg" [];
      Publish (NSuccess "b.png" "thumbnails/b_thumb.jpg")],
     Ok (mkResponse 200 (docs_ok_body (sample_env "a.png" rejects_none photo) 2))).
Proof.
  exact (docs_completed_loop_counts_records (sample_env "a.png" rejects_none photo)
           (s3_event [s3_record "src" "a.png"; s3_record "src" "b.png"]) [] _
           (PList [s3_record "src" "a.png"; s3_record "src" "b.png"])
           [s3_record "src" "a.png"; s3_record "src" "b.png"] eq_refl eq_refl eq_refl).
Defined.

(* ------------------------------------------------------------------ *)
(** ** Per-record isolation (C1, C5) *)

Lemma get_chain_shaped (record : pyval) k1 k2 tr :
  record_dict_shaped record = true -> k1 = "bucket" \/ k1 = "object" ->
  exists v, get_chain record k1 k2 tr = (tr, Ok v).
Proof.
  intros Hs Hk. destruct record as [| | | | | d]; try discriminate Hs.
  unfold get_chain, bind. simpl in Hs |- *.
  destruct (assoc "s3" d) as [[| | | | | s3] |]; try discriminate Hs.
  - apply andb_prop in Hs as [Hb Ho].
    destruct Hk as [-> | ->]; simpl.
    + destruct (assoc "bucket" s3) as [[| | | | | x] |]; try discriminate Hb; eexists; reflexivity.
    + destruct (assoc "object" s3) as [[| | | | | x] |]; try discriminate Ho; eexists; reflexivity.
  - eexists; reflexivity.
Qed.

(** A raising record of Docs is turned into one failure notification. *)
Lemma docs_record_raise (e : env) (record : pyval) tr tr1 err :
  record_dict_shaped record = true -> accepts_record_errors e ->
  docs_process e record tr = (tr1, Raise err) ->
  exists b k, docs_record e record tr = (tr1 ++ [Publish (NRecordError err b k)], Ok tt).
Proof.
  intros Hs Ha Hp. unfold docs_record. rewrite (try_except_raise _ _ _ _ _ Hp).
  unfold docs_record_error.
  destruct (get_chain_shaped record "bucket" "name" tr1 Hs (or_introl eq_refl)) as [b Hb].
  destruct (get_chain_shaped record "object" "key" tr1 Hs (or_intror eq_refl)) as [k Hk].
  rewrite (bind_ok _ _ _ _ _ Hb), (bind_ok _ _ _ _ _ Hk), (bind_ok _ _ _ _ _ Hk).
  exists b, k. unfold publish. rewrite Ha. reflexivity.
Qed.

Lemma docs_record_returns (e : env) (record : pyval) tr :
  record_dict_shaped record = true -> accepts_record_errors e ->
  snd (docs_record e record tr) = Ok tt.
Proof.
  intros Hs Ha.
  destruct (docs_process e record tr) as [tr1 [[] | err]] eqn:Hp.
  - unfold docs_record. rewrite (try_except_ok _ _ _ _ _ Hp). reflexivity.
  - destruct (docs_record_raise e record tr tr1 err Hs Ha Hp) as [b [k ->]]. reflexivity.
Qed.

(** Lamcode: the first record that raises ends the batch; the records
    after it are never looked at and one fatal notification follows. *)
Lemma lam_first_failure_ends_batch (e : env) d pre record post tr tr1 tr2 err :
  assoc "Records" d = Some (PList (pre ++ record :: post)) ->
  for_each (lam_process e) pre tr = (tr1, Ok tt) ->
  lam_process e record tr1 = (tr2, Raise err) ->
  lam_handler e (PDict d) tr =
    (tr2 ++ [Publish (LError err)],
     match sns_publish e tr2 (LError err) with
     | None => Ok (mkResponse 500 (PStr ("Error: " ++ exn_str err)))
     | Some err' => Raise err'
     end).
Proof.
  intros Hr Hpre Hrec.
  assert (Hmain : lam_main e (PDict d) tr = (tr2, Raise err)).
  { unfold lam_main. simpl getitem. rewrite Hr.
    unfold bind at 1. unfold ret at 1. simpl py_iter.
    unfold bind at 1. unfold ret at 1.
    apply bind_raise. rewrite for_each_app, (bind_ok _ _ _ _ _ Hpre).
    simpl. unfold bind at 1. rewrite Hrec. reflexivity. }
  unfold lam_handler. rewrite (try_except_raise _ _ _ _ _ Hmain).
  unfold lam_fatal, publish, bind, ret.
  destruct (sns_publish e tr2 (LError err)); reflexivity.
Qed.

(** C1 (counterexample): in src/lamcode.py a fetch failure of the first of
    two records ends the batch; the second record is never fetched. *)
Lemma lam_fetch_failure_skips_later_records :
  let e := sample_env "a.png" rejects_none photo in
  lam_handler e (s3_event [s3_record "src" "a.png"; s3_record "src" "b.png"]) [] =
    ([GetObject "src" "a.png"; Publish (LError (ClientError "NoSuchKey"))],
     Ok (mkResponse 500 (PStr "Error: NoSuchKey"))) /\
  ~ In (GetObject "src" "b.png")
      (fst (lam_handler e (s3_event [s3_record "src" "a.png"; s3_record "src" "b.png"]) [])).
Proof.
  simpl. split; [reflexivity |]. intros [H | [H | []]]; discriminate H.
Qed.

(** C1 (amended): in src/docs/lambda-function.py a record whose processing
    raises at any step is turned into one failure notification for that
    record, provided that notification is composed and published without
    raising; when that holds for every record, all N records are run in
    order and the answer is 200 with records_processed N.  In
    src/lamcode.py there is no per-record isolation: the first record that
    raises ends the loop, the later records are not touched, one fatal
    notification is published and 500 is answered if SNS accepts it. *)
Theorem record_failure_isolation_docs_only :
  (forall e record tr tr1 err,
     record_dict_shaped record = true -> accepts_record_errors e ->
     docs_process e record tr = (tr1, Raise err) ->
     exists b k, docs_record e record tr = (tr1 ++ [Publish (NRecordError err b k)], Ok tt)) /\
  (forall e d items tr,
     assoc "Records" d = Some (PList items) -> accepts_record_errors e ->
     Forall (fun r => record_dict_shaped r = true) items ->
     docs_handler e (PDict d) tr =
       (fold_left (fun t r => fst (docs_record e r t)) items tr,
        Ok (mkResponse 200 (docs_ok_body e (Z.of_nat (length items)))))) /\
  (forall e d pre record post tr tr1 tr2 err,
     assoc "Records" d = Some (PList (pre ++ record :: post)) ->
     for_each (lam_process e) pre tr = (tr1, Ok tt) ->
     lam_process e record tr1 = (tr2, Raise err) ->
     fst (lam_handler e (PDict d) tr) = tr2 ++ [Publish (LError err)] /\
     (sns_publish e tr2 (LError err) = None ->
      snd (lam_handler e (PDict d) tr) = Ok (mkResponse 500 (PStr ("Error: " ++ exn_str err))))).
Proof.
  split; [| split].
  - intros. eapply docs_record_raise; eassumption.
  - intros e d items tr Hr Ha Hs.
    apply docs_loop_completed with (records := PList items);
      [simpl; rewrite Hr; reflexivity | reflexivity |].
    apply for_each_all_ok. intros r t Hin.
    apply docs_record_returns; [| exact Ha].
    rewrite Forall_forall in Hs. apply Hs. exact Hin.
  - intros e d pre record post tr tr1 tr2 err Hr Hpre Hrec.
    rewrite (lam_first_failure_ends_batch e d pre record post tr tr1 tr2 err Hr Hpre Hrec).
    split; [reflexivity |]. simpl. intros ->. reflexivity.
Qed.

Lemma record_failure_isolation_docs_only_witness :
  let e := sample_env "a.png" rejects_none photo in
  (exists b k, docs_record e (s3_record "src" "a.png") [] =
     ([GetObject "src" "a.png"] ++ [Publish (NRecordError (ClientError "NoSuchKey") b k)], Ok tt)) /\
  docs_handler e (s3_event [s3_record "src" "a.png"; s3_record "src" "b.png"]) [] =
    (fold_left (fun t r => fst (docs_record e r t))
       [s3_record "src" "a.png"; s3_record "src" "b.png"] [],
     Ok (mkResponse 200 (docs_ok_body e 2))) /\
  fst (lam_handler e (s3_event ([] ++ s3_record "src" "a.png" :: [s3_record "src" "b.png"])) []) =
    [GetObject "src" "a.png"] ++ [Publish (LError (ClientError "NoSuchKey"))].
Proof.
  intro e. destruct record_failure_isolation_docs_only as [H1 [H2 H3]]. split; [| split].
  - apply H1; [reflexivity | intros ? ? ? ?; reflexivity | reflexivity].
  - apply (H2 e _ [s3_record "src" "a.png"; s3_record "src" "b.png"]);
      [reflexivity | intros ? ? ? ?; reflexivity | repeat constructor].
  - apply (H3 e _ [] (s3_record "src" "a.png") [s3_record "src" "b.png"] [] []);
      reflexivity.
Defined.

(** C5 (counterexample): in src/lamcode.py a failing success notification
    of the first record ends the batch: the second record is never
    fetched and the answer is 500. *)
Lemma lam_success_publish_failure_aborts :
  let e := sample_env "none" rejects_successes photo in
  lam_handler e (s3_event [s3_record "src" "a.png"; s3_record "src" "b.png"]) [] =
    ([GetObject "src" "a.png"; PutObject "thumbs" "thumbnails/a_thumb.jpg" [];
      Publish (LSuccess "a.png" "thumbnails/a_thumb.jpg");
      Publish (LError (ClientError "AuthorizationError"))],
     Ok (mkResponse 500 (PStr "Error: AuthorizationError"))).
Proof. reflexivity. Qed.

(** C5 (amended): in src/docs/lambda-function.py the fatal notification is
    sent inside its own try/except: whatever SNS answers, the handler
    returns the 500 response of the fatal error; a failing success
    notification of a record is caught by that record's try and reported
    like any other failure of the record (one failure notification, then
    the next record).  src/lamcode.py guards no publish: a failing success
    notification ends the batch through the fatal path, and a failing
    fatal notification propagates out of the handler. *)
Theorem notification_failures_docs_fatal_swallowed :
  (forall e event tr tr1 err,
     docs_main e event tr = (tr1, Raise err) ->
     docs_handler e event tr =
       (tr1 ++ [Publish (NCritical err)], Ok (mkResponse 500 (docs_error_body e err)))) /\
  (forall e record tr tr1 err k tk,
     record_dict_shaped record = true -> accepts_record_errors e ->
     docs_process e record tr = (tr1 ++ [Publish (NSuccess k tk)], Raise err) ->
     exists b k', docs_record e record tr =
       (tr1 ++ [Publish (NSuccess k tk); Publish (NRecordError err b k')], Ok tt)) /\
  (forall e d pre record post tr tr1 tr2 err k tk,
     assoc "Records" d = Some (PList (pre ++ record :: post)) ->
     for_each (lam_process e) pre tr = (tr1, Ok tt) ->
     lam_process e record tr1 = (tr2 ++ [Publish (LSuccess k tk)], Raise err) ->
     fst (lam_handler e (PDict d) tr) =
       tr2 ++ [Publish (LSuccess k tk); Publish (LError err)]) /\
  (forall e event tr tr1 err err',
     lam_main e event tr = (tr1, Raise err) ->
     sns_publish e tr1 (LError err) = Some err' ->
     lam_handler e event tr = (tr1 ++ [Publish (LError err)], Raise err')).
Proof.
  split; [| split; [| split]].
  - intros e event tr tr1 err Hm. unfold docs_handler.
    rewrite (try_except_raise _ _ _ _ _ Hm). apply docs_fatal_result.
  - intros e record tr tr1 err k tk Hs Ha Hp.
    destruct (docs_record_raise e record tr _ err Hs Ha Hp) as [b [k' ->]].
    exists b, k'. rewrite <- app_assoc. reflexivity.
  - intros e d pre record post tr tr1 tr2 err k tk Hr Hpre Hrec.
    rewrite (lam_first_failure_ends_batch e d pre record post tr tr1 _ err Hr Hpre Hrec).
    simpl. rewrite <- app_assoc. reflexivity.
  - intros e event tr tr1 err err' Hm Hp. unfold lam_handler.
    rewrite (try_except_raise _ _ _ _ _ Hm). unfold lam_fatal, publish, bind.
    rewrite Hp. reflexivity.
Qed.

Lemma notification_failures_docs_fatal_swallowed_witness :
  let e := sample_env "none" rejects_all photo in
  let e' := sample_env "none" rejects_successes photo in
  docs_handler e (PDict [("Records", PInt 3)]) [] =
    ([] ++ [Publish (NCritical TypeError)], Ok (mkResponse 500 (docs_error_body e TypeError))) /\
  (exists b k', docs_record e' (s3_record "src" "a.png") [] =
     ([GetObject "src" "a.png"; PutObject "thumbs" "thumbnails/a_thumb.jpg" []] ++
      [Publish (NSuccess "a.png" "thumbnails/a_thumb.jpg");
       Publish (NRecordError (ClientError "AuthorizationError") b k')], Ok tt)) /\
  (fst (lam_handler e' (s3_event ([] ++ s3_record "src" "a.png" :: [s3_record "src" "b.png"])) []) =
    [GetObject "src" "a.png"; PutObject "thumbs" "thumbnails/a_thumb.jpg" []] ++
    [Publish (LSuccess "a.png" "thumbnails/a_thumb.jpg");
     Publish (LError (ClientError "AuthorizationError"))]) /\
  lam_handler e (PDict []) [] =
    ([] ++ [Publish (LError (KeyError "Records"))], Raise (ClientError "AuthorizationError")).
Proof.
  intros e e'. destruct notification_failures_docs_fatal_swallowed as [H1 [H2 [H3 H4]]].
  split; [| split; [| split]].
  - apply H1. reflexivity.
  - apply H2; [reflexivity | intros ? ? ? ?; reflexivity | reflexivity].
  - apply (H3 e' _ [] (s3_record "src" "a.png") [s3_record "src" "b.png"] [] []); reflexivity.
  - apply H4; reflexivity.
Defined.

(* ------------------------------------------------------------------ *)
(** ** Events without records (C2, C8) *)

Lemma docs_no_records e d tr :
  (assoc "Records" d = None \/ assoc "Records" d = Some (PList [])) ->
  docs_handler e (PDict d) tr = (tr, Ok (mkResponse 200 (docs_ok_body e 0))).
Proof.
  intro H. unfold docs_handler. apply try_except_ok.
  unfold docs_main, bind, dict_get. destruct H as [-> | ->]; reflexivity.
Qed.

(** C2 (counterexample): src/docs/lambda-function.py reads the records
    with [event.get('Records', [])], so an event without [Records] is an
    empty batch: status 200, no notification. *)
Lemma docs_missing_records_is_empty_batch :
  let e := sample_env "none" rejects_none photo in
  docs_handler e (PDict []) [] = ([], Ok (mkResponse 200 (docs_ok_body e 0))) /\
  statusCode (mkResponse 200 (docs_ok_body e 0)) <> 500.
Proof. split; [reflexivity | discriminate]. Qed.

(** C2 (amended): for a dict event without [Records], the handler of
    src/docs/lambda-function.py answers 200 with records_processed 0 and
    issues no request at all; the handler of src/lamcode.py raises
    KeyError on [event['Records']], attempts exactly one fatal
    notification and answers 500 with the error if SNS accepts it
    (otherwise the SNS error propagates). *)
Theorem missing_records_docs_empty_lam_fatal :
  (forall e d tr, assoc "Records" d = None ->
     docs_handler e (PDict d) tr = (tr, Ok (mkResponse 200 (docs_ok_body e 0)))) /\
  (forall e d tr, assoc "Records" d = None ->
     lam_handler e (PDict d) tr =
       (tr ++ [Publish (LError (KeyError "Records"))],
        match sns_publish e tr (LError (KeyError "Records")) with
        | None => Ok (mkResponse 500 (PStr "Error: 'Records'"))
        | Some err => Raise err
        end)).
Proof.
  split.
  - intros e d tr H. apply docs_no_records. left. exact H.
  - intros e d tr H. unfold lam_handler, try_except, lam_main. simpl getitem. rewrite H.
    unfold bind at 1, raise. unfold lam_fatal, publish, bind, ret.
    destruct (sns_publish e tr (LError (KeyError "Records"))); reflexivity.
Qed.

Lemma missing_records_docs_empty_lam_fatal_witness :
  let e := sample_env "none" rejects_none photo in
  docs_handler e (PDict [("version", PStr "0")]) [] = ([], Ok (mkResponse 200 (docs_ok_body e 0))) /\
  lam_handler e (PDict [("version", PStr "0")]) [] =
    ([] ++ [Publish (LError (KeyError "Records"))], Ok (mkResponse 500 (PStr "Error: 'Records'"))).
Proof.
  intro e. destruct missing_records_docs_empty_lam_fatal as [H1 H2]. split.
  - apply H1. reflexivity.
  - apply H2. reflexivity.
Defined.

(** C8 (counterexample): the 200 answer of src/lamcode.py to an empty
    batch is a bare message string with no records_processed field. *)
Lemma lam_empty_batch_has_no_count :
  let e := sample_env "none" rejects_none photo in
  lam_handler e (s3_event []) [] = ([], Ok (mkResponse 200 (PStr "Thumbnails generated successfully!"))) /\
  records_processed (mkResponse 200 (PStr "Thumbnails generated successfully!")) = None.
Proof. split; reflexivity. Qed.

(** C8 (amended): for a dict event whose [Records] is an empty list, both
    handlers issue no request (no fetch, no upload, no notification) and
    answer 200; the body of src/docs/lambda-function.py has
    records_processed 0, the body of src/lamcode.py is the plain message
    "Thumbnails generated successfully!" without a count. *)
Theorem empty_batch_no_requests :
  (forall e d tr, assoc "Records" d = Some (PList []) ->
     docs_handler e (PDict d) tr = (tr, Ok (mkResponse 200 (docs_ok_body e 0))) /\
     records_processed (mkResponse 200 (docs_ok_body e 0)) = Some (PInt 0)) /\
  (forall e d tr, assoc "Records" d = Some (PList []) ->
     lam_handler e (PDict d) tr = (tr, Ok (mkResponse 200 (PStr "Thumbnails generated successfully!")))).
Proof.
  split.
  - intros e d tr H. split; [apply docs_no_records; right; exact H | reflexivity].
  - intros e d tr H. unfold lam_handler. apply try_except_ok.
    unfold lam_main. simpl getitem. rewrite H. reflexivity.
Qed.

Lemma empty_batch_no_requests_witness :
  let e := sample_env "none" rejects_all photo in
  docs_handler e (s3_event []) [] = ([], Ok (mkResponse 200 (docs_ok_body e 0))) /\
  lam_handler e (s3_event []) [] = ([], Ok (mkResponse 200 (PStr "Thumbnails generated successfully!"))).
Proof.
  intro e. destruct empty_batch_no_requests as [H1 H2]. split.
  - apply (H1 e _ []). reflexivity.
  - apply H2. reflexivity.
Defined.

(* ------------------------------------------------------------------ *)
(** ** Destination keys (C4, C9) *)

(** A directory prefix: empty, or ending in the separator. *)
Definition dir_prefix (dir : list ascii) : Prop := dir = [] \/ exists d', dir = d' ++ [sep].

Lemma rfind_from_app c l1 l2 i acc :
  rfind_from c (l1 ++ l2) i acc = rfind_from c l2 (i + Z.of_nat (length l1)) (rfind_from c l1 i acc).
Proof.
  revert i acc. induction l1 as [| x l1 IH]; intros i acc; simpl.
  - rewrite Z.add_0_r. reflexivity.
  - rewrite IH. f_equal. lia.
Qed.

Lemma rfind_from_notin c l i acc : ~ In c l -> rfind_from c l i acc = acc.
Proof.
  revert i acc. induction l as [| x l IH]; intros i acc H; simpl; [reflexivity |].
  destruct (Ascii.eqb_spec x c) as [-> | _].
  - exfalso. apply H. left. reflexivity.
  - apply IH. intro Hin. apply H. right. exact Hin.
Qed.

Lemma rfind_from_lt c l i acc : acc < i -> rfind_from c l i acc < i + Z.of_nat (length l).
Proof.
  revert i acc. induction l as [| x l IH]; intros i acc H; simpl; [lia |].
  specialize (IH (i + 1) (if (x =? c)%char then i else acc)).
  destruct (x =? c)%char; lia.
Qed.

Lemma rfind_dir dir : dir_prefix dir -> rfind sep dir = Z.of_nat (length dir) - 1.
Proof.
  intros [-> | [d' ->]]; [reflexivity |].
  unfold rfind. rewrite rfind_from_app, length_app. simpl. lia.
Qed.

Lemma rfind_sep_after_dir dir rest :
  dir_prefix dir -> ~ In sep rest -> rfind sep (dir ++ rest) = Z.of_nat (length dir) - 1.
Proof.
  intros Hd Hr. unfold rfind. rewrite rfind_from_app, rfind_from_notin by exact Hr.
  apply rfind_dir. exact Hd.
Qed.

Lemma not_in_dot_cons l : ~ In sep l -> ~ In sep (extsep :: l).
Proof. intros H [E | E]; [discriminate E | exact (H E)]. Qed.

(** [basename]: what follows the directory prefix. *)
Lemma basename_after_dir dir s :
  dir_prefix dir -> ~ In sep s -> basename (dir ++ s) = s.
Proof.
  intros Hd Hs. unfold basename. rewrite rfind_sep_after_dir by assumption.
  replace (Z.to_nat (Z.of_nat (length dir) - 1 + 1)) with (length dir) by lia.
  rewrite skipn_app, skipn_all, Nat.sub_diag. reflexivity.
Qed.

Lemma skip_leading_dots_found dir s rest dotIndex j n :
  (j + n = length s)%nat ->
  (exists c, In c (skipn j s) /\ c <> extsep) ->
  skip_leading_dots (dir ++ s ++ rest) (Z.of_nat (length dir + j)) dotIndex n =
    Some (firstn (Z.to_nat dotIndex) (dir ++ s ++ rest), skipn (Z.to_nat dotIndex) (dir ++ s ++ rest)).
Proof.
  revert j. induction n as [| n IH]; intros j Hj [c [Hc Hne]].
  - rewrite Nat.add_0_r in Hj. subst j. rewrite skipn_all in Hc. destruct Hc.
  - assert (Hlt : (j < length s)%nat) by lia.
    destruct (nth_error s j) as [x |] eqn:Hx;
      [| apply nth_error_None in Hx; lia].
    simpl. rewrite Nat2Z.id, nth_error_app2 by lia.
    replace (length dir + j - length dir)%nat with j by lia.
    rewrite nth_error_app1 by exact Hlt. rewrite Hx.
    destruct (Ascii.eqb_spec x extsep) as [-> | Hneq]; [simpl | reflexivity].
    replace (Z.of_nat (length dir + j) + 1) with (Z.of_nat (length dir + S j)) by lia.
    apply IH; [lia |]. exists c. split; [| exact Hne].
    destruct (nth_error_split s j Hx) as [l1 [l2 [-> Hl1]]].
    rewrite skipn_app, Hl1, skipn_all2 in Hc by lia.
    rewrite Nat.sub_diag in Hc. simpl in Hc.
    destruct Hc as [E | E]; [subst c; contradiction |].
    rewrite skipn_app, skipn_all2 by (rewrite Hl1; lia).
    replace (S j - length l1)%nat with 1%nat by lia. exact E.
Qed.

(** [splitext] removes the last extension of the file name. *)
Lemma splitext_with_ext dir s ext :
  dir_prefix dir -> ~ In sep s -> ~ In sep ext -> ~ In extsep ext ->
  (exists c, In c s /\ c <> extsep) ->
  splitext (dir ++ s ++ extsep :: ext) = (dir ++ s, extsep :: ext).
Proof.
  intros Hd Hs Hse Hde Hc. unfold splitext.
  assert (Hrest : ~ In sep (s ++ extsep :: ext)).
  { intro H. apply in_app_or in H.
    destruct H as [H | H]; [exact (Hs H) | exact (not_in_dot_cons _ Hse H)]. }
  rewrite (rfind_sep_after_dir dir _ Hd Hrest).
  assert (Hdot : rfind extsep (dir ++ s ++ extsep :: ext) = Z.of_nat (length dir + length s)).
  { unfold rfind. rewrite app_assoc, rfind_from_app. simpl.
    rewrite ?Ascii.eqb_refl, rfind_from_notin by exact Hde. rewrite length_app. lia. }
  rewrite Hdot.
  replace (Z.of_nat (length dir) - 1 <? Z.of_nat (length dir + length s)) with true
    by (symmetry; apply Z.ltb_lt; lia).
  replace (Z.of_nat (length dir) - 1 + 1) with (Z.of_nat (length dir + 0)) by lia.
  replace (Z.to_nat (Z.of_nat (length dir + length s) - Z.of_nat (length dir + 0)))
    with (length s) by lia.
  rewrite skip_leading_dots_found by (try reflexivity; exact Hc).
  rewrite Nat2Z.id, app_assoc.
  rewrite firstn_app, skipn_app, <- length_app, firstn_all, skipn_all, Nat.sub_diag.
  simpl. rewrite app_nil_r. reflexivity.
Qed.

(** [splitext] leaves a name without dot unchanged (dots of the directory
    come before the last separator). *)
Lemma splitext_no_ext dir b :
  dir_prefix dir -> ~ In sep b -> ~ In extsep b -> splitext (dir ++ b) = (dir ++ b, []).
Proof.
  intros Hd Hs Hdb. unfold splitext.
  rewrite rfind_sep_after_dir by assumption.
  assert (Hdot : rfind extsep (dir ++ b) < Z.of_nat (length dir)).
  { unfold rfind. rewrite rfind_from_app, rfind_from_notin by exact Hdb.
    pose proof (rfind_from_lt extsep dir 0 (-1)). lia. }
  replace (Z.of_nat (length dir) - 1 <? rfind extsep (dir ++ b)) with false
    by (symmetry; apply Z.ltb_ge; lia).
  reflexivity.
Qed.

(** [splitext] of a file name that starts with its only dot: the leading
    dot is skipped, nothing is split. *)
Lemma splitext_leading_dot dir ext :
  dir_prefix dir -> ~ In sep ext -> ~ In extsep ext ->
  splitext (dir ++ extsep :: ext) = (dir ++ extsep :: ext, []).
Proof.
  intros Hd Hs Hde. unfold splitext.
  rewrite (rfind_sep_after_dir dir _ Hd (not_in_dot_cons _ Hs)).
  assert (Hdot : rfind extsep (dir ++ extsep :: ext) = Z.of_nat (length dir)).
  { unfold rfind. rewrite rfind_from_app. simpl.
    rewrite ?Ascii.eqb_refl, rfind_from_notin by exact Hde. lia. }
  rewrite Hdot.
  replace (Z.of_nat (length dir) - 1 <? Z.of_nat (length dir)) with true
    by (symmetry; apply Z.ltb_lt; lia).
  replace (Z.to_nat (Z.of_nat (length dir) - (Z.of_nat (length dir) - 1 + 1))) with O by lia.
  reflexivity.
Qed.

Lemma docs_thumbnail_key_lists p :
  docs_thumbnail_key (string_of_list_ascii p) =
    ("thumbnails/" ++ string_of_list_ascii (basename (fst (splitext p))) ++ "_thumb.jpg")%string.
Proof.
  unfold docs_thumbnail_key, str_basename, str_splitext_root.
  rewrite !list_ascii_of_string_of_list_ascii. reflexivity.
Qed.

Lemma lam_thumbnail_key_lists p :
  lam_thumbnail_key (string_of_list_ascii p) =
    ("thumbnails/" ++ string_of_list_ascii (fst (splitext p)) ++ "_thumb.jpg")%string.
Proof.
  unfold lam_thumbnail_key, str_splitext_root.
  rewrite list_ascii_of_string_of_list_ascii. reflexivity.
Qed.

Ltac not_in_chars :=
  let H := fresh in
  intro H; simpl in H; repeat (destruct H as [H | H]; [discriminate H |]); exact H.

(** C4 (counterexample): src/lamcode.py keeps the directory of the source
    key: [source/photo.png] is stored as [thumbnails/source/photo_thumb.jpg]. *)
Lemma lam_key_keeps_directory :
  lam_thumbnail_key "source/photo.png" = "thumbnails/source/photo_thumb.jpg" /\
  lam_thumbnail_key "source/photo.png" <> "thumbnails/photo_thumb.jpg".
Proof. split; [reflexivity | discriminate]. Qed.

(** C4 (amended): the destination key of src/docs/lambda-function.py drops
    the directory prefix and the last extension of the source key: for a
    key [dir ++ name ++ "." ++ ext] (dir empty or ending in "/", no "/" in
    name or ext, no "." in ext, name not made of dots only) it is
    [thumbnails/{name}_thumb.jpg], and for a key [dir ++ name] whose name
    has no dot it is [thumbnails/{name}_thumb.jpg]; in particular
    [source/photo.png] gives [thumbnails/photo_thumb.jpg].  The key of
    src/lamcode.py drops only the extension and keeps the directory:
    [thumbnails/{dir}{name}_thumb.jpg], e.g. [thumbnails/source/photo_thumb.jpg]. *)
Theorem thumbnail_key_docs_basename :
  (forall dir name ext,
     dir_prefix dir -> ~ In sep name -> ~ In sep ext -> ~ In extsep ext ->
     (exists c, In c name /\ c <> extsep) ->
     docs_thumbnail_key (string_of_list_ascii (dir ++ name ++ extsep :: ext)) =
       ("thumbnails/" ++ string_of_list_ascii name ++ "_thumb.jpg")%string /\
     lam_thumbnail_key (string_of_list_ascii (dir ++ name ++ extsep :: ext)) =
       ("thumbnails/" ++ string_of_list_ascii (dir ++ name) ++ "_thumb.jpg")%string) /\
  (forall dir name,
     dir_prefix dir -> ~ In sep name -> ~ In extsep name ->
     docs_thumbnail_key (string_of_list_ascii (dir ++ name)) =
       ("thumbnails/" ++ string_of_list_ascii name ++ "_thumb.jpg")%string /\
     lam_thumbnail_key (string_of_list_ascii (dir ++ name)) =
       ("thumbnails/" ++ string_of_list_ascii (dir ++ name) ++ "_thumb.jpg")%string) /\
  docs_thumbnail_key "source/photo.png" = "thumbnails/photo_thumb.jpg" /\
  lam_thumbnail_key "source/photo.png" = "thumbnails/source/photo_thumb.jpg".
Proof.
  split; [| split; [| split]].
  - intros dir name ext Hd Hn He Hde Hc.
    rewrite docs_thumbnail_key_lists, lam_thumbnail_key_lists,
            splitext_with_ext by assumption.
    simpl fst. rewrite basename_after_dir by assumption. split; reflexivity.
  - intros dir name Hd Hn Hdn.
    rewrite docs_thumbnail_key_lists, lam_thumbnail_key_lists,
            splitext_no_ext by assumption.
    simpl fst. rewrite basename_after_dir by assumption. split; reflexivity.
  - reflexivity.
  - reflexivity.
Qed.

Lemma thumbnail_key_docs_basename_witness :
  (docs_thumbnail_key (string_of_list_ascii
      (list_ascii_of_string "source/" ++ list_ascii_of_string "photo" ++
       extsep :: list_ascii_of_string "png")) = "thumbnails/photo_thumb.jpg" /\
   lam_thumbnail_key (string_of_list_ascii
      (list_ascii_of_string "source/" ++ list_ascii_of_string "photo" ++
       extsep :: list_ascii_of_string "png")) = "thumbnails/source/photo_thumb.jpg") /\
  (docs_thumbnail_key (string_of_list_ascii
      (list_ascii_of_string "a.b/" ++ list_ascii_of_string "README")) = "thumbnails/README_thumb.jpg" /\
   lam_thumbnail_key (string_of_list_ascii
      (list_ascii_of_string "a.b/" ++ list_ascii_of_string "README")) = "thumbnails/a.b/README_thumb.jpg").
Proof.
  destruct thumbnail_key_docs_basename as [H1 [H2 _]]. split.
  - apply H1.
    + right. exists (list_ascii_of_string "source"). reflexivity.
    + not_in_chars.
    + not_in_chars.
    + not_in_chars.
    + exists "p"%char. split; [left; reflexivity | discriminate].
  - apply H2.
    + right. exists (list_ascii_of_string "a.b"). reflexivity.
    + not_in_chars.
    + not_in_chars.
Defined.

(** C9 (counterexample): [.png] is not reduced to an empty base name. *)
Lemma dot_only_key_not_empty_base :
  docs_thumbnail_key ".png" = "thumbnails/.png_thumb.jpg" /\
  docs_thumbnail_key ".png" <> "thumbnails/_thumb.jpg".
Proof. split; [reflexivity | discriminate]. Qed.

(** C9 (amended): a file name that is a single leading dot followed by
    an extension (e.g. [.png]) counts as having no extension ([splitext]
    skips leading dots), so nothing is stripped: src/docs/lambda-function.py
    derives [thumbnails/.png_thumb.jpg] (the base name is [.png]) and
    src/lamcode.py derives [thumbnails/{dir}.png_thumb.jpg]. *)
Theorem dot_only_key_kept_whole :
  forall dir ext,
    dir_prefix dir -> ~ In sep ext -> ~ In extsep ext ->
    docs_thumbnail_key (string_of_list_ascii (dir ++ extsep :: ext)) =
      ("thumbnails/" ++ string_of_list_ascii (extsep :: ext) ++ "_thumb.jpg")%string /\
    lam_thumbnail_key (string_of_list_ascii (dir ++ extsep :: ext)) =
      ("thumbnails/" ++ string_of_list_ascii (dir ++ extsep :: ext) ++ "_thumb.jpg")%string.
Proof.
  intros dir ext Hd Hs Hde.
  rewrite docs_thumbnail_key_lists, lam_thumbnail_key_lists,
          splitext_leading_dot by assumption.
  simpl fst. rewrite basename_after_dir by (try assumption; exact (not_in_dot_cons _ Hs)).
  split; reflexivity.
Qed.

Lemma dot_only_key_kept_whole_witness :
  docs_thumbnail_key (string_of_list_ascii ([] ++ extsep :: list_ascii_of_string "png")) =
    "thumbnails/.png_thumb.jpg" /\
  lam_thumbnail_key (string_of_list_ascii ([] ++ extsep :: list_ascii_of_string "png")) =
    "thumbnails/.png_thumb.jpg".
Proof.
  apply (dot_only_key_kept_whole [] (list_ascii_of_string "png")).
  - left. reflexivity.
  - not_in_chars.
  - not_in_chars.
Defined.

(* ------------------------------------------------------------------ *)
(** ** Thumbnail size (C7) *)

Lemma floor_div_spec a b : 0 < b -> floor_div a b * b <= a < (floor_div a b + 1) * b.
Proof.
  intro Hb. unfold floor_div.
  pose proof (Z.div_mod a b ltac:(lia)). pose proof (Z.mod_pos_bound a b Hb). nia.
Qed.

Lemma ceil_div_spec a b : 0 < b -> (ceil_div a b - 1) * b < a <= ceil_div a b * b.
Proof.
  intro Hb. unfold ceil_div.
  pose proof (Z.div_mod (- a) b ltac:(lia)). pose proof (Z.mod_pos_bound (- a) b Hb). nia.
Qed.

(** The rounded width when the height is pinned to [y]. *)
Lemma round_aspect_x_spec x y w h :
  0 < x -> 0 < y -> 0 < w -> 0 < h -> y * w <= x * h ->
  1 <= round_aspect_x y w h <= x /\
  Z.abs (round_aspect_x y w h * h - y * w) < h /\
  (y < h -> round_aspect_x y w h <= w).
Proof.
  intros Hx Hy Hw Hh Hb. unfold round_aspect_x.
  pose proof (floor_div_spec (y * w) h Hh) as Hf.
  pose proof (ceil_div_spec (y * w) h Hh) as Hc.
  set (f := floor_div (y * w) h) in *. set (c := ceil_div (y * w) h) in *.
  assert (Hc1 : 1 <= c) by nia.
  assert (Hcx : c <= x) by nia.
  destruct (_ <? _).
  - rewrite Z.max_l by lia. repeat split; try lia; intros; nia.
  - destruct (Z.max_spec f 1) as [[Hlt ->] | [Hge ->]].
    + repeat split; try lia; intros; nia.
    + repeat split; try nia; intros; nia.
Qed.

(** The rounded height when the width is pinned to [x]. *)
Lemma round_aspect_y_spec x y w h :
  0 < x -> 0 < y -> 0 < w -> 0 < h -> x * h < y * w ->
  1 <= round_aspect_y x w h <= y /\
  Z.abs (round_aspect_y x w h * w - x * h) < w /\
  (x < w -> round_aspect_y x w h <= h).
Proof.
  intros Hx Hy Hw Hh Hb. unfold round_aspect_y.
  pose proof (floor_div_spec (x * h) w Hw) as Hf.
  pose proof (ceil_div_spec (x * h) w Hw) as Hc.
  set (f := floor_div (x * h) w) in *. set (c := ceil_div (x * h) w) in *.
  assert (Hc1 : 1 <= c) by nia.
  assert (Hcy : c <= y) by nia.
  assert (Hselect : forall s : bool, 1 <= Z.max (if s then c else f) 1 <= y /\
            Z.abs (Z.max (if s then c else f) 1 * w - x * h) < w /\
            (x < w -> Z.max (if s then c else f) 1 <= h)).
  { intros []; simpl.
    - rewrite Z.max_l by lia. repeat split; try lia; intros; nia.
    - destruct (Z.max_spec f 1) as [[Hlt ->] | [Hge ->]].
      + repeat split; try lia; intros; nia.
      + repeat split; try nia; intros; nia. }
  apply Hselect.
Qed.

(** [image.thumbnail((200, 200))] on an image of positive size: at most
    200 x 200, never larger than the source, the pinned side exact and the
    other one within a pixel of proportional, and no change at all for an
    image that already fits; the mode is kept. *)
Lemma thumbnail_spec (e : env) (img : image) :
  0 < im_width img -> 0 < im_height img ->
  exists t, thumbnail e img = Ok t /\ im_mode t = im_mode img /\
    1 <= im_width t <= 200 /\ 1 <= im_height t <= 200 /\
    im_width t <= im_width img /\ im_height t <= im_height img /\
    Z.abs (im_width t * im_height img - im_height t * im_width img)
      < Z.max (im_width img) (im_height img) /\
    (im_width img <= 200 -> im_height img <= 200 -> t = img).
Proof.
  intros Hw Hh. unfold thumbnail, preserve_aspect_ratio. simpl fst; simpl snd.
  set (w := im_width img) in *. set (h := im_height img) in *.
  destruct ((w <=? 200) && (h <=? 200)) eqn:Hfit.
  - apply andb_prop in Hfit as [H1 H2]. apply Z.leb_le in H1, H2.
    exists img. repeat split; try lia.
  - assert (Hbig : 200 < w \/ 200 < h).
    { destruct (Z.leb_spec w 200), (Z.leb_spec h 200); simpl in Hfit;
        try discriminate Hfit; lia. }
    replace (h =? 0) with false by (symmetry; apply Z.eqb_neq; lia).
    destruct (Z.leb_spec (200 * w) (200 * h)) as [Hb | Hb].
    + destruct (round_aspect_x_spec 200 200 w h ltac:(lia) ltac:(lia) Hw Hh Hb)
        as [Hr1 [Hr2 Hr3]].
      set (r := round_aspect_x 200 w h) in *.
      assert (Hrw : r <= w) by (apply Hr3; lia).
      destruct ((r =? w) && (200 =? h)) eqn:Heq.
      * apply andb_prop in Heq as [E1 E2]. apply Z.eqb_eq in E1, E2.
        exists img. repeat split; try lia.
      * eexists. split; [reflexivity |]. cbn [im_mode im_width im_height].
        repeat split; try lia.
    + destruct (round_aspect_y_spec 200 200 w h ltac:(lia) ltac:(lia) Hw Hh ltac:(lia))
        as [Hr1 [Hr2 Hr3]].
      set (r := round_aspect_y 200 w h) in *.
      assert (Hrh : r <= h) by (apply Hr3; lia).
      destruct ((200 =? w) && (r =? h)) eqn:Heq.
      * apply andb_prop in Heq as [E1 E2]. apply Z.eqb_eq in E1, E2.
        exists img. repeat split; try lia.
      * eexists. split; [reflexivity |]. cbn [im_mode im_width im_height].
        repeat split; try lia.
Qed.

Lemma nth_error_zip_with3 {A B C D} (f : A -> B -> C -> D) la lb lc i :
  nth_error (zip_with3 f la lb lc) i =
  match nth_error la i, nth_error lb i, nth_error lc i with
  | Some a, Some b, Some c => Some (f a b c)
  | _, _, _ => None
  end.
Proof.
  revert lb lc i. induction la as [| a la IH]; intros [| b lb] [| c lc] [| i];
    simpl; try reflexivity; try (destruct (nth_error la i); reflexivity);
    try (destruct (nth_error la i), (nth_error lb i); reflexivity).
  apply IH.
Qed.

Lemma length_zip_with3 {A B C D} (f : A -> B -> C -> D) la lb lc :
  length (zip_with3 f la lb lc) = Nat.min (length la) (Nat.min (length lb) (length lc)).
Proof.
  revert lb lc. induction la as [| a la IH]; intros [| b lb] [| c lc]; simpl;
    try reflexivity; try lia.
  rewrite IH. reflexivity.
Qed.

(** [BLEND] with a zero mask keeps the white background. *)
Lemma blend_transparent c : blend 0 255 c = 255.
Proof. unfold blend, div255. rewrite Z.mul_0_r, Z.add_0_r. reflexivity. Qed.

(** [BLEND] with a full mask yields the source byte. *)
Lemma blend_opaque c : 0 <= c <= 255 -> blend 255 255 c = c.
Proof.
  intro Hc.
  assert (Hall : forallb (fun n => Z.eqb (blend 255 255 (Z.of_nat n)) (Z.of_nat n))
                         (seq 0 256) = true) by (vm_compute; reflexivity).
  rewrite forallb_forall in Hall.
  specialize (Hall (Z.to_nat c)). rewrite Z2Nat.id in Hall by lia.
  apply Z.eqb_eq, Hall, in_seq. lia.
Qed.

Lemma thumbnail_mode e img t : thumbnail e img = Ok t -> im_mode t = im_mode img.
Proof.
  unfold thumbnail. destruct (preserve_aspect_ratio _ _ _ _) as [[[x y] |] | err];
    intro H; try discriminate H.
  - destruct (_ && _); injection H as <-; reflexivity.
  - injection H as <-. reflexivity.
Qed.

Lemma docs_normalize_dims img :
  im_width (docs_normalize img) = im_width img /\
  im_height (docs_normalize img) = im_height img.
Proof.
  unfold docs_normalize.
  destruct (_ || _ || _); [| split; reflexivity].
  destruct (mode_eqb (im_mode img) MP); split; reflexivity.
Qed.

(** The pixel [docs_normalize] makes of an RGBA pixel. *)
Lemma paste_rgba_pixel r g b a :
  firstn 3 (map (fun '(o, i) => blend a o i)
                (combine (raw32 MRGB [255; 255; 255]) (raw32 MRGBA [r; g; b; a]))) =
  [blend a 255 r; blend a 255 g; blend a 255 b].
Proof. reflexivity. Qed.

(** C7: for every image of positive dimensions, as decoded and as
    normalised by src/docs/lambda-function.py, [thumbnail] succeeds and
    gives an image of the same mode whose width and height are between 1
    and 200, no larger than the source's, with the cross products
    [width' * height] and [height' * width] differing by less than the
    larger source side (the aspect ratio kept within rounding); an image
    that already fits in 200x200 is returned unchanged. *)
Theorem thumbnail_within_box (e : env) (img : image) :
  0 < im_width img -> 0 < im_height img ->
  forall src, src = img \/ src = docs_normalize img ->
  exists t, thumbnail e src = Ok t /\ im_mode t = im_mode src /\
    1 <= im_width t <= 200 /\ 1 <= im_height t <= 200 /\
    im_width t <= im_width img /\ im_height t <= im_height img /\
    Z.abs (im_width t * im_height img - im_height t * im_width img)
      < Z.max (im_width img) (im_height img) /\
    (im_width img <= 200 -> im_height img <= 200 -> t = src).
Proof.
  intros Hw Hh src Hsrc.
  assert (Hd : im_width src = im_width img /\ im_height src = im_height img).
  { destruct Hsrc as [-> | ->]; [split; reflexivity | apply docs_normalize_dims]. }
  destruct Hd as [Ew Eh].
  destruct (thumbnail_spec e src) as [t Ht]; [lia | lia |].
  rewrite Ew, Eh in Ht. exists t. exact Ht.
Qed.

Lemma thumbnail_within_box_witness :
  exists t, thumbnail (sample_env "none" rejects_none photo) photo = Ok t /\
    im_mode t = im_mode photo /\
    1 <= im_width t <= 200 /\ 1 <= im_height t <= 200 /\
    im_width t <= im_width photo /\ im_height t <= im_height photo /\
    Z.abs (im_width t * im_height photo - im_height t * im_width photo)
      < Z.max (im_width photo) (im_height photo) /\
    (im_width photo <= 200 -> im_height photo <= 200 -> t = photo).
Proof.
  apply (thumbnail_within_box (sample_env "none" rejects_none photo) photo);
    [simpl; lia | simpl; lia | left; reflexivity].
Defined.

Lemma docs_normalize_rgba img :
  im_mode img = MRGBA ->
  docs_normalize img =
  mkImage MRGB (im_width img) (im_height img)
    (zip_with3 (fun dst src a =>
                  firstn 3 (map (fun '(o, i) => blend a o i)
                                (combine (raw32 MRGB dst) (raw32 MRGBA src))))
               (repeat [255; 255; 255] (Z.to_nat (im_width img * im_height img)))
               (im_pixels img) (last_band img)) [].
Proof. intro Hm. unfold docs_normalize, paste_rgb. rewrite Hm. simpl. rewrite Hm. reflexivity. Qed.

Lemma docs_normalize_P img :
  im_mode img = MP -> docs_normalize img = docs_normalize (convert_P_RGBA img).
Proof. intro Hm. unfold docs_normalize. rewrite Hm. reflexivity. Qed.

Lemma docs_normalize_other img :
  im_mode img <> MRGBA -> im_mode img <> MLA -> im_mode img <> MP ->
  docs_normalize img = img.
Proof.
  intros H1 H2 H3. unfold docs_normalize.
  destruct (im_mode img); try reflexivity; contradiction.
Qed.

Lemma lam_process_rgba e img b k tr data :
  0 < im_width img -> 0 < im_height img -> im_mode img = MRGBA ->
  s3_get e tr b k = inl data -> decode e data = Some img ->
  lam_process e (s3_record b k) tr = (tr ++ [GetObject b k], Raise OSError).
Proof.
  intros Hw Hh Hm Hget Hdec.
  destruct (thumbnail_spec e img Hw Hh) as [t [Ht [Hmt _]]].
  unfold lam_process, s3_record. simpl getitem. unfold bind, ret, get_object.
  simpl. rewrite Hget. unfold image_open. rewrite Hdec, Ht.
  unfold jpeg_save. rewrite Hmt, Hm. reflexivity.
Qed.

Lemma byte_range_spec c : byte_range c = true -> 0 <= c <= 255.
Proof. unfold byte_range. intro H. apply andb_prop in H as [H1 H2]. lia. Qed.

Lemma docs_normalize_rgba_pixel img i px :
  im_mode img = MRGBA -> rgba_well_formed img = true ->
  nth_error (im_pixels img) i = Some px ->
  (last px 0 = 0 -> nth_error (im_pixels (docs_normalize img)) i = Some [255; 255; 255]) /\
  (last px 0 = 255 -> nth_error (im_pixels (docs_normalize img)) i = Some (firstn 3 px)).
Proof.
  intros Hm Hwf Hi. rewrite (docs_normalize_rgba img Hm). cbn [im_pixels].
  unfold rgba_well_formed in Hwf. apply andb_prop in Hwf as [Hlen Hpx].
  apply Nat.eqb_eq in Hlen. rewrite forallb_forall in Hpx.
  specialize (Hpx px (nth_error_In _ _ Hi)).
  apply andb_prop in Hpx as [Hl4 Hrng]. apply Nat.eqb_eq in Hl4.
  rewrite forallb_forall in Hrng.
  assert (Hlt : (i < length (im_pixels img))%nat) by (apply nth_error_Some; congruence).
  rewrite nth_error_zip_with3, nth_error_repeat by lia.
  unfold last_band. rewrite nth_error_map, Hi. simpl option_map.
  destruct px as [| r [| g [| b [| a [| x px]]]]]; simpl in Hl4; try discriminate Hl4.
  pose proof (byte_range_spec r (Hrng r ltac:(simpl; tauto))).
  pose proof (byte_range_spec g (Hrng g ltac:(simpl; tauto))).
  pose proof (byte_range_spec b (Hrng b ltac:(simpl; tauto))).
  rewrite paste_rgba_pixel. simpl last.
  split; intros ->.
  - rewrite !blend_transparent. reflexivity.
  - rewrite !blend_opaque by lia. reflexivity.
Qed.

Lemma docs_normalize_rgba_length img :
  im_mode img = MRGBA -> rgba_well_formed img = true ->
  length (im_pixels (docs_normalize img)) = length (im_pixels img).
Proof.
  intros Hm Hwf. rewrite (docs_normalize_rgba img Hm). cbn [im_pixels].
  unfold rgba_well_formed in Hwf. apply andb_prop in Hwf as [Hlen _].
  apply Nat.eqb_eq in Hlen.
  rewrite length_zip_with3, repeat_length. unfold last_band. rewrite length_map. lia.
Qed.

(** C6 (counterexample): src/lamcode.py does not normalise the colour mode:
    an RGBA object reaches the JPEG encoder as RGBA, the save raises
    OSError and the invocation answers 500 with no thumbnail stored.  (In
    src/docs/lambda-function.py an LA image is pasted without a mask, so
    its transparent black pixel comes out black, not white.) *)
Lemma lam_rgba_not_normalized :
  let e := sample_env "none" rejects_none rgba_sample in
  lam_handler e (s3_event [s3_record "src" "a.png"]) [] =
    ([GetObject "src" "a.png"; Publish (LError OSError)],
     Ok (mkResponse 500 (PStr ("Error: " ++ exn_str OSError)))) /\
  im_pixels (docs_normalize la_sample) = [[0; 0; 0]; [100; 100; 100]].
Proof. split; reflexivity. Qed.

(** C6 (amended): only src/docs/lambda-function.py normalises the colour
    mode.  An RGBA image (of [w * h] pixels of four 8-bit bands) is pasted
    onto a white RGB background of its size with its alpha band as mask:
    the result is RGB with the same width, height and number of pixels, a
    pixel of alpha 0 becomes white [(255, 255, 255)], a pixel of alpha 255
    keeps its colour, and its thumbnail is in a mode the JPEG encoder
    writes.  A palette (P) image is first converted to RGBA and then
    treated the same way, keeping its dimensions.  Images in modes other
    than RGBA, LA and P pass unchanged.  src/lamcode.py has no such step:
    for an RGBA object the JPEG save raises OSError after the fetch, and
    nothing is uploaded. *)
Theorem normalize_rgba_p_docs_only (e : env) (img : image) :
  im_mode img = MRGBA -> rgba_well_formed img = true ->
  0 < im_width img -> 0 < im_height img ->
  (im_mode (docs_normalize img) = MRGB /\
   im_width (docs_normalize img) = im_width img /\
   im_height (docs_normalize img) = im_height img /\
   length (im_pixels (docs_normalize img)) = length (im_pixels img) /\
   (forall i px, nth_error (im_pixels img) i = Some px ->
      (last px 0 = 0 -> nth_error (im_pixels (docs_normalize img)) i = Some [255; 255; 255]) /\
      (last px 0 = 255 -> nth_error (im_pixels (docs_normalize img)) i = Some (firstn 3 px))) /\
   (exists t, thumbnail e (docs_normalize img) = Ok t /\ jpeg_writable (im_mode t) = true)) /\
  (forall p, im_mode p = MP ->
     im_mode (convert_P_RGBA p) = MRGBA /\
     docs_normalize p = docs_normalize (convert_P_RGBA p) /\
     im_width (docs_normalize p) = im_width p /\ im_height (docs_normalize p) = im_height p) /\
  (forall o, im_mode o <> MRGBA -> im_mode o <> MLA -> im_mode o <> MP -> docs_normalize o = o) /\
  (forall b k tr data, s3_get e tr b k = inl data -> decode e data = Some img ->
     lam_process e (s3_record b k) tr = (tr ++ [GetObject b k], Raise OSError)).
Proof.
  intros Hm Hwf Hw Hh.
  destruct (docs_normalize_dims img) as [Ew Eh].
  split; [| split; [| split]].
  - assert (Hmode : im_mode (docs_normalize img) = MRGB)
      by (rewrite (docs_normalize_rgba img Hm); reflexivity).
    split; [exact Hmode |]. split; [exact Ew |]. split; [exact Eh |].
    split; [apply docs_normalize_rgba_length; assumption |].
    split; [intros i px Hi; apply docs_normalize_rgba_pixel; assumption |].
    destruct (thumbnail_spec e (docs_normalize img)) as [t [Ht [Hmt _]]];
      [lia | lia |].
    exists t. split; [exact Ht |]. rewrite Hmt, Hmode. reflexivity.
  - intros p Hp. split; [reflexivity |]. split; [apply docs_normalize_P; exact Hp |].
    apply docs_normalize_dims.
  - apply docs_normalize_other.
  - intros b k tr data Hget Hdec. apply (lam_process_rgba e img b k tr data); assumption.
Qed.

Lemma normalize_rgba_p_docs_only_witness :
  let e := sample_env "none" rejects_none rgba_sample in
  (im_mode (docs_normalize rgba_sample) = MRGB /\
   im_width (docs_normalize rgba_sample) = im_width rgba_sample /\
   im_height (docs_normalize rgba_sample) = im_height rgba_sample /\
   length (im_pixels (docs_normalize rgba_sample)) = length (im_pixels rgba_sample) /\
   (forall i px, nth_error (im_pixels rgba_sample) i = Some px ->
      (last px 0 = 0 -> nth_error (im_pixels (docs_normalize rgba_sample)) i = Some [255; 255; 255]) /\
      (last px 0 = 255 -> nth_error (im_pixels (docs_normalize rgba_sample)) i = Some (firstn 3 px))) /\
   (exists t, thumbnail e (docs_normalize rgba_sample) = Ok t /\ jpeg_writable (im_mode t) = true)) /\
  (forall p, im_mode p = MP ->
     im_mode (convert_P_RGBA p) = MRGBA /\
     docs_normalize p = docs_normalize (convert_P_RGBA p) /\
     im_width (docs_normalize p) = im_width p /\ im_height (docs_normalize p) = im_height p) /\
  (forall o, im_mode o <> MRGBA -> im_mode o <> MLA -> im_mode o <> MP -> docs_normalize o = o) /\
  (forall b k tr data, s3_get e tr b k = inl data -> decode e data = Some rgba_sample ->
     lam_process e (s3_record b k) tr = (tr ++ [GetObject b k], Raise OSError)).
Proof.
  intro e. apply (normalize_rgba_p_docs_only e rgba_sample);
    [reflexivity | reflexivity | simpl; lia | simpl; lia].
Defined.

(* ------------------------------------------------------------------ *)
(** ** [os.path.splitext] and [os.path.basename] on any key *)

Lemma rfind_from_ge_min c p i acc : Z.min acc i <= rfind_from c p i acc.
Proof.
  revert i acc. induction p as [| x p IH]; intros i acc; simpl; [lia |].
  specialize (IH (i + 1) (if (x =? c)%char then i else acc)).
  destruct (x =? c)%char; lia.
Qed.

Lemma rfind_from_ge c p i acc j :
  nth_error p j = Some c -> i + Z.of_nat j <= rfind_from c p i acc.
Proof.
  revert i acc j. induction p as [| x p IH]; intros i acc [| j] H; simpl in H |- *;
    try discriminate H.
  - injection H as ->. rewrite Ascii.eqb_refl.
    pose proof (rfind_from_ge_min c p (i + 1) i). lia.
  - specialize (IH (i + 1) (if (x =? c)%char then i else acc) j H). lia.
Qed.

Lemma rfind_from_cases c p i acc :
  (~ In c p /\ rfind_from c p i acc = acc) \/
  exists l1 l2, p = l1 ++ c :: l2 /\ ~ In c l2 /\
                rfind_from c p i acc = i + Z.of_nat (length l1).
Proof.
  revert i acc. induction p as [| x p IH]; intros i acc.
  - left. split; [intros [] | reflexivity].
  - simpl. destruct (IH (i + 1) (if (x =? c)%char then i else acc))
      as [[Hn Hr] | [l1 [l2 [Hp [Hl2 Hr]]]]].
    + rewrite Hr. destruct (Ascii.eqb_spec x c) as [-> | Hxc].
      * right. exists [], p. simpl. repeat split; [assumption | lia].
      * left. split; [intros [E | E]; [exact (Hxc E) | exact (Hn E)] | reflexivity].
    + right. exists (x :: l1), l2. subst p. simpl. repeat split; [assumption | lia].
Qed.

Lemma skip_leading_dots_result p fi d fuel :
  skip_leading_dots p fi d fuel = None \/
  skip_leading_dots p fi d fuel = Some (firstn (Z.to_nat d) p, skipn (Z.to_nat d) p).
Proof.
  revert fi. induction fuel as [| fuel IH]; intro fi; simpl; [left; reflexivity |].
  destruct (negb _); [right; reflexivity | apply IH].
Qed.

Lemma not_in_nth_error {A} (x : A) l : (forall k, nth_error l k <> Some x) -> ~ In x l.
Proof. intros H Hin. apply In_nth_error in Hin as [k Hk]. exact (H k Hk). Qed.

(** [root + ext == p]; [ext] is empty or a dot followed by neither a dot
    nor a slash. *)
Lemma splitext_parts p :
  fst (splitext p) ++ snd (splitext p) = p /\
  (snd (splitext p) = [] \/
   exists x, snd (splitext p) = extsep :: x /\ ~ In sep x /\ ~ In extsep x).
Proof.
  unfold splitext, rfind.
  destruct (rfind_from_cases extsep p 0 (-1)) as [[_ Hd] | [l1 [l2 [Hp [Hl2 Hd]]]]];
    rewrite Hd.
  - pose proof (rfind_from_ge_min sep p 0 (-1)).
    replace (rfind_from sep p 0 (-1) <? -1) with false by (symmetry; apply Z.ltb_ge; lia).
    simpl. rewrite app_nil_r. auto.
  - destruct (rfind_from sep p 0 (-1) <? 0 + Z.of_nat (length l1)) eqn:Hlt;
      [| simpl; rewrite app_nil_r; auto].
    apply Z.ltb_lt in Hlt.
    destruct (skip_leading_dots_result p (rfind_from sep p 0 (-1) + 1)
                (0 + Z.of_nat (length l1))
                (Z.to_nat (0 + Z.of_nat (length l1) - (rfind_from sep p 0 (-1) + 1))))
      as [-> | ->]; [simpl; rewrite app_nil_r; auto |].
    simpl fst. simpl snd. split; [apply firstn_skipn |].
    right. rewrite Nat2Z.id.
    rewrite Hp, skipn_app, skipn_all, Nat.sub_diag. simpl.
    exists l2. split; [reflexivity |]. split; [| exact Hl2].
    apply not_in_nth_error. intros k Hk.
    assert (Hpk : nth_error p (length l1 + S k) = Some sep).
    { rewrite Hp, nth_error_app2 by lia. rewrite Nat.add_comm, Nat.add_sub. exact Hk. }
    pose proof (rfind_from_ge sep p 0 (-1) _ Hpk). lia.
Qed.

(** [basename]: [p] is a directory prefix followed by its base name,
    which holds no slash. *)
Lemma basename_parts p :
  exists d, dir_prefix d /\ p = d ++ basename p /\ ~ In sep (basename p).
Proof.
  unfold basename, rfind.
  destruct (rfind_from_cases sep p 0 (-1)) as [[Hn Hd] | [l1 [l2 [Hp [Hl2 Hd]]]]];
    rewrite Hd.
  - exists []. simpl. split; [left; reflexivity | split; [reflexivity | exact Hn]].
  - replace (Z.to_nat (0 + Z.of_nat (length l1) + 1)) with (length (l1 ++ [sep]))
      by (rewrite length_app; simpl; lia).
    assert (Hp' : p = (l1 ++ [sep]) ++ l2) by (rewrite Hp, <- app_assoc; reflexivity).
    rewrite Hp', skipn_app, skipn_all, Nat.sub_diag. simpl.
    exists (l1 ++ [sep]). split; [right; exists l1; reflexivity | split; [reflexivity | exact Hl2]].
Qed.

(** Extra: the destination key of src/lamcode.py is the source key with at
    most its last extension removed: the key splits as [root ++ ext], where
    [ext] is empty or a dot followed by no dot and no slash, and the
    destination is [thumbnails/{root}_thumb.jpg]. *)
Theorem lam_thumbnail_key_strips_last_extension (key : string) :
  exists root ext, list_ascii_of_string key = root ++ ext /\
    lam_thumbnail_key key = ("thumbnails/" ++ string_of_list_ascii root ++ "_thumb.jpg")%string /\
    (ext = [] \/ exists x, ext = extsep :: x /\ ~ In sep x /\ ~ In extsep x).
Proof.
  destruct (splitext_parts (list_ascii_of_string key)) as [H1 H2].
  exists (fst (splitext (list_ascii_of_string key))), (snd (splitext (list_ascii_of_string key))).
  split; [symmetry; exact H1 | split; [reflexivity | exact H2]].
Qed.

(** Extra: the destination key of src/docs/lambda-function.py always lies
    directly under [thumbnails/]: the source key splits as
    [dir ++ name ++ ext] with [dir] empty or ending in a slash, [name]
    without slash and [ext] empty or a dot followed by no dot and no
    slash, and the destination is [thumbnails/{name}_thumb.jpg]. *)
Theorem docs_thumbnail_key_flat (key : string) :
  exists dir name ext, list_ascii_of_string key = dir ++ name ++ ext /\
    dir_prefix dir /\ ~ In sep name /\
    (ext = [] \/ exists x, ext = extsep :: x /\ ~ In sep x /\ ~ In extsep x) /\
    docs_thumbnail_key key = ("thumbnails/" ++ string_of_list_ascii name ++ "_thumb.jpg")%string.
Proof.
  destruct (splitext_parts (list_ascii_of_string key)) as [H1 H2].
  set (root := fst (splitext (list_ascii_of_string key))) in *.
  destruct (basename_parts root) as [d [Hd [Hr Hn]]].
  exists d, (basename root), (snd (splitext (list_ascii_of_string key))).
  split; [rewrite app_assoc, <- Hr; symmetry; exact H1 |].
  split; [exact Hd |]. split; [exact Hn |]. split; [exact H2 |].
  unfold docs_thumbnail_key, str_basename, str_splitext_root.
  rewrite list_ascii_of_string_of_list_ascii. reflexivity.
Qed.

(* ------------------------------------------------------------------ *)
(** ** More on [image.thumbnail] *)

(** Extra: [thumbnail] is idempotent: thumbnailing the thumbnail of an
    image of positive size changes nothing. *)
Theorem thumbnail_idempotent (e : env) (img t : image) :
  0 < im_width img -> 0 < im_height img -> thumbnail e img = Ok t ->
  thumbnail e t = Ok t.
Proof.
  intros Hw Hh Ht.
  destruct (thumbnail_spec e img Hw Hh) as [t' [Ht' [_ [Hw' [Hh' _]]]]].
  rewrite Ht in Ht'. injection Ht' as <-.
  unfold thumbnail, preserve_aspect_ratio. simpl fst; simpl snd.
  replace ((im_width t <=? 200) && (im_height t <=? 200)) with true
    by (symmetry; apply andb_true_intro; split; apply Z.leb_le; lia).
  reflexivity.
Qed.

Lemma thumbnail_idempotent_witness :
  thumbnail (sample_env "none" rejects_none photo)
    (mkImage MRGB 200 150 (resample (sample_env "none" rejects_none photo) photo 200 150) []) =
  Ok (mkImage MRGB 200 150 (resample (sample_env "none" rejects_none photo) photo 200 150) []).
Proof.
  apply (thumbnail_idempotent (sample_env "none" rejects_none photo) photo);
    [simpl; lia | simpl; lia | reflexivity].
Defined.

(** Extra: an image of positive size that does not fit in 200x200 is
    resized so that its longer side is exactly 200, and the orientation is
    kept (a portrait image stays portrait, a landscape one landscape). *)
Theorem thumbnail_fills_box (e : env) (img t : image) :
  0 < im_width img -> 0 < im_height img ->
  200 < im_width img \/ 200 < im_height img ->
  thumbnail e img = Ok t ->
  Z.max (im_width t) (im_height t) = 200 /\
  (im_width img <= im_height img -> im_width t <= im_height t) /\
  (im_height img <= im_width img -> im_height t <= im_width t).
Proof.
  intros Hw Hh Hbig. unfold thumbnail, preserve_aspect_ratio. simpl fst; simpl snd.
  set (w := im_width img) in *. set (h := im_height img) in *.
  replace ((w <=? 200) && (h <=? 200)) with false
    by (symmetry; apply andb_false_iff; destruct Hbig; [left | right]; apply Z.leb_gt; lia).
  replace (h =? 0) with false by (symmetry; apply Z.eqb_neq; lia).
  destruct (Z.leb_spec (200 * w) (200 * h)) as [Hb | Hb].
  - destruct (round_aspect_x_spec 200 200 w h ltac:(lia) ltac:(lia) Hw Hh Hb)
      as [Hr1 [Hr2 _]].
    set (r := round_aspect_x 200 w h) in *.
    destruct ((r =? w) && (200 =? h)) eqn:Heq.
    + apply andb_prop in Heq as [E1 E2]. apply Z.eqb_eq in E1, E2. lia.
    + intro Ht. injection Ht as <-. cbn [im_width im_height].
      split; [lia |]. split; [lia |]. intro Hhw.
      assert (w = h) by lia. subst w. assert (r = 200) by nia. lia.
  - destruct (round_aspect_y_spec 200 200 w h ltac:(lia) ltac:(lia) Hw Hh ltac:(lia))
      as [Hr1 [Hr2 _]].
    set (r := round_aspect_y 200 w h) in *.
    destruct ((200 =? w) && (r =? h)) eqn:Heq.
    + apply andb_prop in Heq as [E1 E2]. apply Z.eqb_eq in E1, E2. lia.
    + intro Ht. injection Ht as <-. cbn [im_width im_height].
      split; [lia |]. split; intro; lia.
Qed.

Lemma thumbnail_fills_box_witness :
  Z.max 200 150 = 200 /\ (400 <= 300 -> 200 <= 150) /\ (300 <= 400 -> 150 <= 200).
Proof.
  apply (thumbnail_fills_box (sample_env "none" rejects_none photo) photo
           (mkImage MRGB 200 150 (resample (sample_env "none" rejects_none photo) photo 200 150) []));
    [simpl; lia | simpl; lia | simpl; lia | reflexivity].
Defined.

(* ------------------------------------------------------------------ *)
(** ** [thumbnail_size_text] *)

Lemma round_half_even_div_spec a d :
  0 < d ->
  2 * Z.abs (d * round_half_even_div a d - a) <= d /\
  a / d <= round_half_even_div a d <= a / d + 1.
Proof.
  intro Hd. unfold round_half_even_div.
  pose proof (Z.div_mod a d ltac:(lia)). pose proof (Z.mod_pos_bound a d Hd).
  set (q := a / d) in *. set (r := a mod d) in *.
  destruct (Z.ltb_spec d (2 * r)); [split; [nia | lia] |].
  destruct (Z.ltb_spec (2 * r) d); [split; [nia | lia] |].
  destruct (Z.even q); split; nia.
Qed.

Lemma float_of_int_small n : n < 2 ^ 53 -> float_of_int n = n.
Proof. intro H. unfold float_of_int. apply Z.ltb_lt in H. rewrite H. reflexivity. Qed.

(** Extra: [thumbnail_size_text] shows the size of the buffer in bytes
    below 1024 bytes, in KB below 1024 * 1024 bytes and in MB above, with
    two decimals that are the size in that unit rounded to the nearest
    hundredth (so a buffer just under 1 MB shows as [1024.00 KB]); the MB
    statement covers sizes below 2^53 bytes, where the float is exact. *)
Theorem thumbnail_size_text_units (buffer : bytes) :
  let n := Z.of_nat (length buffer) in
  (n < 1024 -> thumbnail_size_text buffer = (str_of_Z n ++ " B")%string) /\
  (1024 <= n < 1024 * 1024 ->
     exists h, thumbnail_size_text buffer = (fixed2 h ++ " KB")%string /\
       2 * Z.abs (1024 * h - 100 * n) <= 1024 /\ 100 <= h <= 102400) /\
  (1024 * 1024 <= n < 2 ^ 53 ->
     exists h, thumbnail_size_text buffer = (fixed2 h ++ " MB")%string /\
       2 * Z.abs (1024 * 1024 * h - 100 * n) <= 1024 * 1024 /\ 100 <= h).
Proof.
  intro n. unfold thumbnail_size_text. fold n.
  split; [| split].
  - intro H. apply Z.ltb_lt in H. rewrite H. reflexivity.
  - intros [H1 H2]. replace (n <? 1024) with false by (symmetry; apply Z.ltb_ge; lia).
    apply Z.ltb_lt in H2. rewrite H2. apply Z.ltb_lt in H2.
    rewrite float_of_int_small by lia.
    destruct (round_half_even_div_spec (100 * n) 1024 ltac:(lia)) as [Hr [Hlo _]].
    eexists. split; [reflexivity |].
    assert (100 <= 100 * n / 1024) by (apply Z.div_le_lower_bound; lia).
    split; lia.
  - intros [H1 H2].
    replace (n <? 1024) with false by (symmetry; apply Z.ltb_ge; lia).
    replace (n <? 1024 * 1024) with false by (symmetry; apply Z.ltb_ge; lia).
    rewrite float_of_int_small by lia.
    destruct (round_half_even_div_spec (100 * n) (1024 * 1024) ltac:(lia)) as [Hr [Hlo _]].
    eexists. split; [reflexivity |].
    assert (100 <= 100 * n / (1024 * 1024)) by (apply Z.div_le_lower_bound; lia).
    split; lia.
Qed.

(* ------------------------------------------------------------------ *)
(** ** Compositing onto white *)

Lemma all_upto_spec P n lo :
  all_upto P n lo = true -> forall x, lo <= x < lo + Z.of_nat n -> P x = true.
Proof.
  revert lo. induction n as [| n IH]; intros lo H x Hx; simpl in H; [lia |].
  apply andb_prop in H as [H0 H1].
  destruct (Z.eq_dec x lo) as [-> | Hne]; [exact H0 |].
  apply (IH (lo + 1) H1). lia.
Qed.

(** [DIV255] rounds to the nearest integer on every blend of two bytes. *)
Lemma div255_round x : 0 <= x <= 255 * 255 -> Z.abs (255 * div255 x - x) <= 127.
Proof.
  intro Hx.
  assert (Hall : all_upto (fun y => Z.abs (255 * div255 y - y) <=? 127) (Z.to_nat 65026) 0 = true)
    by (vm_compute; reflexivity).
  apply Z.leb_le. apply (all_upto_spec _ _ _ Hall). rewrite Z2Nat.id by lia. lia.
Qed.

Lemma blend_white_round a c :
  0 <= a <= 255 -> 0 <= c <= 255 ->
  Z.abs (255 * blend a 255 c - (a * c + (255 - a) * 255)) <= 127.
Proof.
  intros Ha Hc. unfold blend.
  replace (a * c + (255 - a) * 255) with (255 * (255 - a) + c * a) by ring.
  apply div255_round. nia.
Qed.

Lemma docs_normalize_rgba_nth img i r g b a :
  im_mode img = MRGBA -> rgba_well_formed img = true ->
  nth_error (im_pixels img) i = Some [r; g; b; a] ->
  nth_error (im_pixels (docs_normalize img)) i =
    Some [blend a 255 r; blend a 255 g; blend a 255 b].
Proof.
  intros Hm Hwf Hi. rewrite (docs_normalize_rgba img Hm). cbn [im_pixels].
  unfold rgba_well_formed in Hwf. apply andb_prop in Hwf as [Hlen _].
  apply Nat.eqb_eq in Hlen.
  assert (Hlt : (i < length (im_pixels img))%nat) by (apply nth_error_Some; congruence).
  rewrite nth_error_zip_with3, nth_error_repeat by lia.
  unfold last_band. rewrite nth_error_map, Hi. reflexivity.
Qed.

Lemma rgba_pixel_bytes img px :
  rgba_well_formed img = true -> In px (im_pixels img) ->
  forall c, In c px -> 0 <= c <= 255.
Proof.
  intros Hwf Hin c Hc. unfold rgba_well_formed in Hwf.
  apply andb_prop in Hwf as [_ Hpx]. rewrite forallb_forall in Hpx.
  specialize (Hpx px Hin). apply andb_prop in Hpx as [_ Hr].
  rewrite forallb_forall in Hr. apply byte_range_spec, Hr, Hc.
Qed.

(** Extra: normalising an RGBA image in src/docs/lambda-function.py
    composites each pixel [(r, g, b, a)] over white: each output channel is
    [(a * c + (255 - a) * 255) / 255] rounded to the nearest integer, so it
    lies between the source channel [c] and 255 (the paste never darkens
    a pixel). *)
Theorem docs_normalize_composites_over_white (img : image) i r g b a :
  im_mode img = MRGBA -> rgba_well_formed img = true ->
  nth_error (im_pixels img) i = Some [r; g; b; a] ->
  exists r' g' b', nth_error (im_pixels (docs_normalize img)) i = Some [r'; g'; b'] /\
    Z.abs (255 * r' - (a * r + (255 - a) * 255)) <= 127 /\
    Z.abs (255 * g' - (a * g + (255 - a) * 255)) <= 127 /\
    Z.abs (255 * b' - (a * b + (255 - a) * 255)) <= 127 /\
    r <= r' <= 255 /\ g <= g' <= 255 /\ b <= b' <= 255.
Proof.
  intros Hm Hwf Hi.
  pose proof (rgba_pixel_bytes img _ Hwf (nth_error_In _ _ Hi)) as Hb.
  assert (Hr := Hb r ltac:(simpl; tauto)). assert (Hg := Hb g ltac:(simpl; tauto)).
  assert (Hbb := Hb b ltac:(simpl; tauto)). assert (Ha := Hb a ltac:(simpl; tauto)).
  exists (blend a 255 r), (blend a 255 g), (blend a 255 b).
  split; [apply docs_normalize_rgba_nth; assumption |].
  pose proof (blend_white_round a r Ha Hr). pose proof (blend_white_round a g Ha Hg).
  pose proof (blend_white_round a b Ha Hbb).
  repeat split; nia.
Qed.

Lemma docs_normalize_composites_over_white_witness :
  exists r' g' b', nth_error (im_pixels (docs_normalize rgba_sample)) 1 = Some [r'; g'; b'] /\
    Z.abs (255 * r' - (255 * 10 + (255 - 255) * 255)) <= 127 /\
    Z.abs (255 * g' - (255 * 20 + (255 - 255) * 255)) <= 127 /\
    Z.abs (255 * b' - (255 * 30 + (255 - 255) * 255)) <= 127 /\
    10 <= r' <= 255 /\ 20 <= g' <= 255 /\ 30 <= b' <= 255.
Proof.
  apply (docs_normalize_composites_over_white rgba_sample 1 10 20 30 255);
    reflexivity.
Defined.

(* ------------------------------------------------------------------ *)
(** ** Which modes reach the JPEG encoder *)




(* ------------------------------------------------------------------ *)
(** ** Requests a run issues *)

Section Extends.
Variable P : call -> Prop.

Lemma ext_ret {A} (a : A) : extends_with P (ret a).
Proof. intro tr. exists []. rewrite app_nil_r. split; [reflexivity | constructor]. Qed.

Lemma ext_raise {A} err : extends_with P (@raise A err).
Proof. intro tr. exists []. rewrite app_nil_r. split; [reflexivity | constructor]. Qed.

Lemma ext_lift_res {A} (r : res A) : extends_with P (lift_res r).
Proof. intro tr. exists []. rewrite app_nil_r. split; [reflexivity | constructor]. Qed.

Lemma ext_bind_dep {A B} (m : M A) (f : A -> M B) :
  extends_with P m ->
  (forall a, (exists tr tr', m tr = (tr', Ok a)) -> extends_with P (f a)) ->
  extends_with P (bind m f).
Proof.
  intros Hm Hf tr. unfold bind. destruct (Hm tr) as [ext1 [H1 F1]].
  destruct (m tr) as [tr1 [a | err]] eqn:E; simpl in H1; subst tr1.
  - destruct (Hf a (ex_intro _ tr (ex_intro _ _ E)) (tr ++ ext1)) as [ext2 [H2 F2]].
    exists (ext1 ++ ext2). rewrite H2, app_assoc. split; [reflexivity | apply Forall_app; auto].
  - exists ext1. auto.
Qed.

Lemma ext_bind {A B} (m : M A) (f : A -> M B) :
  extends_with P m -> (forall a, extends_with P (f a)) -> extends_with P (bind m f).
Proof. intros Hm Hf. apply ext_bind_dep; [exact Hm | intros a _; apply Hf]. Qed.

Lemma ext_try {A} (m : M A) h :
  extends_with P m -> (forall err, extends_with P (h err)) -> extends_with P (try_except m h).
Proof.
  intros Hm Hh tr. unfold try_except. destruct (Hm tr) as [ext1 [H1 F1]].
  destruct (m tr) as [tr1 [a | err]]; simpl in H1; subst tr1; [exists ext1; auto |].
  destruct (Hh err (tr ++ ext1)) as [ext2 [H2 F2]].
  exists (ext1 ++ ext2). rewrite H2, app_assoc. split; [reflexivity | apply Forall_app; auto].
Qed.

Lemma ext_for_each {A} (f : A -> M unit) l :
  (forall x, In x l -> extends_with P (f x)) -> extends_with P (for_each f l).
Proof.
  induction l as [| x l IH]; intro H; simpl; [apply ext_ret |].
  apply ext_bind; [apply H; left; reflexivity | intros _; apply IH; intros y Hy; apply H; right; exact Hy].
Qed.

Lemma ext_getitem v k : extends_with P (getitem v k).
Proof. unfold getitem. destruct v; try apply ext_raise. destruct (assoc k _); [apply ext_ret | apply ext_raise]. Qed.

Lemma ext_dict_get v k dflt : extends_with P (dict_get v k dflt).
Proof. unfold dict_get. destruct v; try apply ext_raise. apply ext_ret. Qed.

Lemma ext_py_iter v : extends_with P (py_iter v).
Proof. unfold py_iter. destruct v; try apply ext_raise; apply ext_ret. Qed.

Lemma ext_py_len v : extends_with P (py_len v).
Proof. unfold py_len. destruct v; try apply ext_raise; apply ext_ret. Qed.

Lemma ext_as_str v : extends_with P (as_str v).
Proof. unfold as_str. destruct v; try apply ext_raise; apply ext_ret. Qed.

Lemma ext_get_object e b k :
  (forall b' k', b = PStr b' -> k = PStr k' -> P (GetObject b' k')) ->
  extends_with P (get_object e b k).
Proof.
  intro H. unfold get_object. destruct b; try apply ext_raise. destruct k; try apply ext_raise.
  intro tr. exists [GetObject s s0]. split; [reflexivity | constructor; [apply H; reflexivity | constructor]].
Qed.

Lemma ext_put_object e k body :
  P (PutObject (thumbnail_bucket e) k body) -> extends_with P (put_object e k body).
Proof. intros H tr. eexists. split; [reflexivity | constructor; [exact H | constructor]]. Qed.

Lemma ext_publish e n : P (Publish n) -> extends_with P (publish e n).
Proof. intros H tr. eexists. split; [reflexivity | constructor; [exact H | constructor]]. Qed.

End Extends.

Lemma ext_mono (P Q : call -> Prop) {A} (m : M A) :
  (forall c, P c -> Q c) -> extends_with P m -> extends_with Q m.
Proof.
  intros HPQ Hm tr. destruct (Hm tr) as [ext [H F]]. exists ext. split; [exact H |].
  eapply Forall_impl; [exact HPQ | exact F].
Qed.

Lemma getitem_ok_inv v k tr tr' a :
  getitem v k tr = (tr', Ok a) -> exists d, v = PDict d /\ assoc k d = Some a.
Proof.
  unfold getitem, ret, raise. destruct v; try discriminate.
  destruct (assoc k _) eqn:E; intro H; inversion H; subst; eauto.
Qed.

Lemma as_str_ok_inv v tr tr' s : as_str v tr = (tr', Ok s) -> v = PStr s.
Proof. unfold as_str, ret, raise. destruct v; intro H; inversion H; reflexivity. Qed.

Lemma get_object_ok_inv e b k tr tr' data :
  get_object e b k tr = (tr', Ok data) -> exists b' k', b = PStr b' /\ k = PStr k'.
Proof. unfold get_object, raise. destruct b, k; intro H; try discriminate H; eauto. Qed.

Lemma docs_request_ok_mono e (N1 N2 : string -> string -> Prop) c :
  (forall b k, N1 b k -> N2 b k) -> docs_request_ok e N1 c -> docs_request_ok e N2 c.
Proof.
  intros H. destruct c as [b k | b k body | [k tk | | | |]]; simpl; try exact (H _ _); try tauto.
  - intros [Hb [b0 [k0 [Hn Hk]]]]. split; [exact Hb | exists b0, k0; auto].
  - intros [[b0 Hn] Hk]. split; [exists b0; auto | exact Hk].
Qed.

Lemma lam_request_ok_mono e (N1 N2 : string -> string -> Prop) c :
  (forall b k, N1 b k -> N2 b k) -> lam_request_ok e N1 c -> lam_request_ok e N2 c.
Proof.
  intros H. destruct c as [b k | b k body | [| | | k tk |]]; simpl; try exact (H _ _); try tauto.
  - intros [Hb [b0 [k0 [Hn Hk]]]]. split; [exact Hb | exists b0, k0; auto].
  - intros [[b0 Hn] Hk]. split; [exists b0; auto | exact Hk].
Qed.

Ltac ext_simple :=
  first [ apply ext_ret | apply ext_raise | apply ext_lift_res | apply ext_getitem
        | apply ext_dict_get | apply ext_py_iter | apply ext_py_len | apply ext_as_str ].

(** The lookups [record['s3'][k1][k2]] that came back with a value. *)
Ltac getitem_facts :=
  repeat match goal with
  | H : exists tr tr', getitem _ _ tr = (tr', Ok _) |- _ =>
      let tr := fresh "tr" in let tr' := fresh "tr" in let Hg := fresh "Hg" in
      destruct H as [tr [tr' Hg]];
      let d := fresh "d" in let Hd := fresh "Hd" in
      apply getitem_ok_inv in Hg as [d [? Hd]]; subst
  end.

Ltac lookup_facts :=
  getitem_facts;
  repeat match goal with
  | H : PDict _ = PDict _ |- _ => injection H as H; subst
  | H1 : ?x = Some ?a, H2 : ?x = Some ?b |- _ =>
      rewrite H1 in H2; injection H2 as H2; subst
  end.

Lemma docs_record_requests e r :
  extends_with (docs_request_ok e (names_object r)) (docs_record e r).
Proof.
  unfold docs_record. apply ext_try.
  - unfold docs_process.
    apply ext_bind_dep; [ext_simple | intros s3 Hs3].
    apply ext_bind_dep; [ext_simple | intros bkt Hbkt].
    apply ext_bind_dep; [ext_simple | intros bucket_name Hbn].
    apply ext_bind_dep; [ext_simple | intros s3' Hs3'].
    apply ext_bind_dep; [ext_simple | intros obj Hobj].
    apply ext_bind_dep; [ext_simple | intros object_key Hok].
    lookup_facts.
    match goal with
    | |- extends_with (docs_request_ok _ (names_object ?R)) _ =>
        assert (Hn : forall b' k', bucket_name = PStr b' -> object_key = PStr k' ->
                     names_object R b' k')
    end.
    { intros b' k' -> ->. unfold names_object. eauto 12. }
    apply ext_bind_dep; [apply ext_get_object; exact Hn | intros data Hdata].
    destruct Hdata as [t1 [t2 Hdata]].
    apply get_object_ok_inv in Hdata as [b' [k' [Hb' Hk']]].
    apply ext_bind; [ext_simple | intros img]. cbv zeta.
    apply ext_bind; [ext_simple | intros t].
    apply ext_bind; [ext_simple | intros buf].
    apply ext_bind_dep; [ext_simple | intros key [t3 [t4 Hkey]]].
    apply as_str_ok_inv in Hkey. rewrite Hkey in Hk'. injection Hk' as <-.
    apply ext_bind; [apply ext_put_object | intros _].
    + simpl. split; [reflexivity | exists b', key; split; [apply Hn; assumption | reflexivity]].
    + apply ext_publish. simpl. split; [exists b'; apply Hn; assumption | reflexivity].
  - intro err. unfold docs_record_error, get_chain.
    repeat (first [apply ext_bind; [| intro] | ext_simple]).
    apply ext_publish. exact I.
Qed.

Lemma lam_process_requests e r :
  extends_with (lam_request_ok e (names_object r)) (lam_process e r).
Proof.
  unfold lam_process.
  apply ext_bind_dep; [ext_simple | intros s3 Hs3].
  apply ext_bind_dep; [ext_simple | intros bkt Hbkt].
  apply ext_bind_dep; [ext_simple | intros bucket Hbn].
  apply ext_bind_dep; [ext_simple | intros s3' Hs3'].
  apply ext_bind_dep; [ext_simple | intros obj Hobj].
  apply ext_bind_dep; [ext_simple | intros key Hok].
  lookup_facts.
  match goal with
  | |- extends_with (lam_request_ok _ (names_object ?R)) _ =>
      assert (Hn : forall b' k', bucket = PStr b' -> key = PStr k' -> names_object R b' k')
  end.
  { intros b' k' -> ->. unfold names_object. eauto 12. }
  apply ext_bind_dep; [apply ext_get_object; exact Hn | intros data Hdata].
  destruct Hdata as [t1 [t2 Hdata]].
  apply get_object_ok_inv in Hdata as [b' [k' [Hb' Hk']]].
  apply ext_bind; [ext_simple | intros img].
  apply ext_bind; [ext_simple | intros t].
  apply ext_bind; [ext_simple | intros buf].
  apply ext_bind_dep; [ext_simple | intros k [t3 [t4 Hkey]]].
  apply as_str_ok_inv in Hkey. rewrite Hkey in Hk'. injection Hk' as <-.
  apply ext_bind; [apply ext_put_object | intros _].
  - simpl. split; [reflexivity | exists b', k; split; [apply Hn; assumption | reflexivity]].
  - apply ext_publish. simpl. split; [exists b'; apply Hn; assumption | reflexivity].
Qed.

(** A record visited by [for record in v] that names an object is one of
    the records of a [Records] list ([v] a dict or a str yields str items,
    which name nothing). *)
Lemma iterated_record_named d records items x tr1 tr2 b k :
  match assoc "Records" d with Some v => v | None => PList [] end = records ->
  py_iter records tr1 = (tr2, Ok items) -> In x items -> names_object x b k ->
  event_names (PDict d) b k.
Proof.
  intros Hr Hi Hx Hn.
  assert (Hx_dict : exists dx, x = PDict dx) by (unfold names_object in Hn; destruct Hn as [dx [? [? [? [-> _]]]]]; eauto).
  destruct Hx_dict as [dx ->].
  destruct records as [| | | | l | dd]; simpl in Hi; try discriminate Hi;
    injection Hi as _ <-.
  - apply in_map_iff in Hx as [c [Hc _]]. discriminate Hc.
  - destruct (assoc "Records" d) eqn:E; [| injection Hr as <-; destruct Hx].
    subst. exists d, l, (PDict dx). auto.
  - apply in_map_iff in Hx as [c [Hc _]]. discriminate Hc.
Qed.

(** Extra: every request that the handler of src/docs/lambda-function.py
    adds to the trace stays within the event: it fetches only objects
    named by a record of [event['Records']], uploads only to
    THUMBNAIL_BUCKET under the key derived from such an object key, and
    announces success only for such a key with that derived key. *)
Theorem docs_handler_requests_within_event (e : env) (event : pyval) (tr : trace) :
  exists ext, fst (docs_handler e event tr) = tr ++ ext /\
    Forall (docs_request_ok e (event_names event)) ext.
Proof.
  revert tr. change (extends_with (docs_request_ok e (event_names event)) (docs_handler e event)).
  unfold docs_handler. apply ext_try.
  - unfold docs_main.
    apply ext_bind_dep; [ext_simple | intros records [t1 [t2 Hr]]].
    apply ext_bind_dep; [ext_simple | intros items [t3 [t4 Hi]]].
    apply ext_bind; [| intros _; repeat (first [apply ext_bind; [| intro] | ext_simple])].
    apply ext_for_each. intros x Hx.
    eapply ext_mono; [| apply docs_record_requests].
    intro c. apply docs_request_ok_mono. intros b k Hn.
    destruct event as [| | | | | d]; simpl in Hr; try discriminate Hr.
    injection Hr as _ Hr. exact (iterated_record_named d records items x _ _ b k Hr Hi Hx Hn).
  - intro err. unfold docs_fatal.
    apply ext_bind; [apply ext_try; [apply ext_publish; exact I | intros; ext_simple] | intros; ext_simple].
Qed.

(** Extra: the same holds for src/lamcode.py: it fetches only objects
    named by the event's records, uploads only to THUMBNAIL_BUCKET under
    the key derived from such an object key, and announces success only
    for such a key. *)
Theorem lam_handler_requests_within_event (e : env) (event : pyval) (tr : trace) :
  exists ext, fst (lam_handler e event tr) = tr ++ ext /\
    Forall (lam_request_ok e (event_names event)) ext.
Proof.
  revert tr. change (extends_with (lam_request_ok e (event_names event)) (lam_handler e event)).
  unfold lam_handler. apply ext_try.
  - unfold lam_main.
    apply ext_bind_dep; [ext_simple | intros records Hr].
    apply ext_bind_dep; [ext_simple | intros items [t3 [t4 Hi]]].
    apply ext_bind; [| intros _; ext_simple].
    apply ext_for_each. intros x Hx.
    eapply ext_mono; [| apply lam_process_requests].
    intro c. apply lam_request_ok_mono. intros b k Hn.
    destruct Hr as [t1 [t2 Hr]]. apply getitem_ok_inv in Hr as [d [-> Hd]].
    apply (iterated_record_named d records items x t3 t4 b k); [rewrite Hd; reflexivity | exact Hi | exact Hx | exact Hn].
  - intro err. unfold lam_fatal.
    apply ext_bind; [apply ext_publish; exact I | intros; ext_simple].
Qed.

(* ------------------------------------------------------------------ *)
(** ** A malformed record in the Docs handler *)

(** A record whose [s3], [bucket] or [object] entry is present but not a
    dict (or which is no dict at all) makes the [.get] chain of the
    per-record [except] raise AttributeError, before any request. *)
Lemma docs_record_not_shaped e r tr :
  record_dict_shaped r = false -> docs_record e r tr = (tr, Raise AttributeError).
Proof.
  intro H. destruct r as [| | | | | d]; try reflexivity.
  simpl in H.
  unfold docs_record, try_except, docs_process, docs_record_error, get_chain, bind.
  destruct (assoc "s3" d) as [v |] eqn:Es3; [| discriminate H].
  destruct v as [| | | | | s3]; try (simpl; rewrite Es3; reflexivity).
  simpl in H.
  destruct (assoc "bucket" s3) as [[| | | | | bk] |] eqn:Eb; simpl in H;
  destruct (assoc "object" s3) as [[| | | | | ob] |] eqn:Eo; simpl in H; try discriminate H;
  simpl; rewrite ?Es3; simpl; rewrite ?Eb; simpl; rewrite ?Eo; simpl;
  try reflexivity.
  all: destruct (assoc "name" bk); simpl; rewrite ?Es3; simpl; rewrite ?Eo; simpl; try reflexivity.
Qed.

(** Extra: in src/docs/lambda-function.py a record that is not a dict, or
    whose [s3], [bucket] or [object] entry is present but not a dict, is
    not isolated: the failure handler of that record raises
    AttributeError, the remaining records are not processed, one critical
    notification is sent and the answer is 500 with that error. *)
Theorem docs_malformed_record_aborts_batch (e : env) pre r post tr tr1 :
  record_dict_shaped r = false ->
  for_each (docs_record e) pre tr = (tr1, Ok tt) ->
  docs_handler e (s3_event (pre ++ r :: post)) tr =
    (tr1 ++ [Publish (NCritical AttributeError)],
     Ok (mkResponse 500 (docs_error_body e AttributeError))).
Proof.
  intros Hr Hpre.
  assert (Hmain : docs_main e (s3_event (pre ++ r :: post)) tr = (tr1, Raise AttributeError)).
  { unfold docs_main, s3_event. simpl dict_get. unfold bind at 1, ret at 1.
    simpl py_iter. unfold bind at 1, ret at 1.
    apply bind_raise. rewrite for_each_app, (bind_ok _ _ _ _ _ Hpre).
    simpl. apply bind_raise. apply docs_record_not_shaped. exact Hr. }
  unfold docs_handler. rewrite (try_except_raise _ _ _ _ _ Hmain).
  apply docs_fatal_result.
Qed.

Lemma docs_malformed_record_aborts_batch_witness :
  let e := sample_env "none" rejects_none photo in
  docs_handler e (s3_event ([s3_record "src" "a.png"] ++ PStr "b.png" :: [s3_record "src" "c.png"])) [] =
    (fst (for_each (docs_record e) [s3_record "src" "a.png"] []) ++
       [Publish (NCritical AttributeError)],
     Ok (mkResponse 500 (docs_error_body e AttributeError))).
Proof.
  intro e. apply (docs_malformed_record_aborts_batch e [s3_record "src" "a.png"] (PStr "b.png")
                    [s3_record "src" "c.png"] [] _); reflexivity.
Defined.

(* ------------------------------------------------------------------ *)
(** ** Notifications of a Docs batch *)











(* ------------------------------------------------------------------ *)
(** ** What a 200 from Lamcode means *)

Lemma getitem_ok_trace v k tr tr' a : getitem v k tr = (tr', Ok a) -> tr' = tr.
Proof.
  unfold getitem, ret, raise. destruct v; try discriminate.
  destruct (assoc k _); intro H; inversion H; reflexivity.
Qed.

Lemma lift_res_ok_trace {A} (r : res A) tr tr' a : lift_res r tr = (tr', Ok a) -> tr' = tr.
Proof. unfold lift_res. intro H. inversion H. reflexivity. Qed.

Lemma as_str_ok_trace v tr tr' s : as_str v tr = (tr', Ok s) -> tr' = tr.
Proof. unfold as_str, ret, raise. destruct v; intro H; inversion H; reflexivity. Qed.

Lemma get_object_ok_trace e b k tr tr' data :
  get_object e b k tr = (tr', Ok data) ->
  exists b' k', b = PStr b' /\ k = PStr k' /\ tr' = tr ++ [GetObject b' k'].
Proof.
  unfold get_object, raise. destruct b, k; intro H; try discriminate H.
  injection H as <- _. eauto.
Qed.

Lemma put_object_ok_trace e k body tr tr' u :
  put_object e k body tr = (tr', Ok u) -> tr' = tr ++ [PutObject (thumbnail_bucket e) k body].
Proof. unfold put_object. intro H. injection H as <- _. reflexivity. Qed.

Lemma publish_ok_trace e n tr tr' u : publish e n tr = (tr', Ok u) -> tr' = tr ++ [Publish n].
Proof. unfold publish. intro H. injection H as <- _. reflexivity. Qed.

(** One record of Lamcode that returns has made exactly three requests:
    the download of the object it names, the upload of its thumbnail and
    the success notification. *)
Definition lam_record_segment (e : env) (x : pyval) (seg : trace) : Prop :=
  exists b k body, names_object x b k /\
    seg = [GetObject b k; PutObject (thumbnail_bucket e) (lam_thumbnail_key k) body;
           Publish (LSuccess k (lam_thumbnail_key k))].

Lemma lam_process_ok_segment e x tr tr' :
  lam_process e x tr = (tr', Ok tt) -> exists seg, lam_record_segment e x seg /\ tr' = tr ++ seg.
Proof.
  unfold lam_process. intro H.
  apply bind_ok_inv in H as [s3 [t1 [G1 H]]].
  apply bind_ok_inv in H as [bkt [t2 [G2 H]]].
  apply bind_ok_inv in H as [bucket [t3 [G3 H]]].
  apply bind_ok_inv in H as [s3' [t4 [G4 H]]].
  apply bind_ok_inv in H as [obj [t5 [G5 H]]].
  apply bind_ok_inv in H as [key [t6 [G6 H]]].
  apply bind_ok_inv in H as [data [t7 [G7 H]]].
  apply bind_ok_inv in H as [img [t8 [G8 H]]].
  apply bind_ok_inv in H as [t [t9 [G9 H]]].
  apply bind_ok_inv in H as [buf [t10 [G10 H]]].
  apply bind_ok_inv in H as [k [t11 [G11 H]]].
  apply bind_ok_inv in H as [u [t12 [G12 H]]].
  apply getitem_ok_trace in G1 as E1. apply getitem_ok_trace in G2 as E2.
  apply getitem_ok_trace in G3 as E3. apply getitem_ok_trace in G4 as E4.
  apply getitem_ok_trace in G5 as E5. apply getitem_ok_trace in G6 as E6.
  apply get_object_ok_trace in G7 as [b' [k' [Eb [Ek E7]]]].
  apply lift_res_ok_trace in G8, G9, G10.
  apply as_str_ok_trace in G11 as E11. apply as_str_ok_inv in G11.
  apply put_object_ok_trace in G12. apply publish_ok_trace in H.
  apply getitem_ok_inv in G1 as [d1 [Q1 A1]]. apply getitem_ok_inv in G2 as [d2 [Q2 A2]].
  apply getitem_ok_inv in G3 as [d3 [Q3 A3]]. apply getitem_ok_inv in G4 as [d4 [Q4 A4]].
  apply getitem_ok_inv in G5 as [d5 [Q5 A5]]. apply getitem_ok_inv in G6 as [d6 [Q6 A6]].
  subst.
  repeat match goal with
  | Hq : PDict _ = PDict _ |- _ => injection Hq as Hq; subst
  | H1 : ?x = Some ?a, H2 : ?x = Some ?b |- _ => rewrite H1 in H2; injection H2 as H2; subst
  end.
  injection G11 as <-.
  eexists. split.
  - exists b', k', buf. split; [| reflexivity].
    unfold names_object. eauto 12.
  - rewrite <- !app_assoc. reflexivity.
Qed.

Lemma for_each_ok_segments {A} (f : A -> M unit) (R : A -> trace -> Prop) l :
  (forall x t t', In x l -> f x t = (t', Ok tt) -> exists seg, R x seg /\ t' = t ++ seg) ->
  forall tr tr', for_each f l tr = (tr', Ok tt) ->
  exists segs, Forall2 R l segs /\ tr' = tr ++ concat segs.
Proof.
  induction l as [| x l IH]; intros Hf tr tr' H; simpl in H.
  - injection H as <-. exists []. rewrite app_nil_r. split; [constructor | reflexivity].
  - apply bind_ok_inv in H as [[] [tr1 [H1 H2]]].
    destruct (Hf x tr tr1 (or_introl eq_refl) H1) as [seg [Hseg ->]].
    destruct (IH (fun y t t' Hy => Hf y t t' (or_intror Hy)) _ _ H2) as [segs [Hsegs ->]].
    exists (seg :: segs). split; [constructor; assumption |].
    simpl. rewrite app_assoc. reflexivity.
Qed.

(** Extra: a 200 answer of src/lamcode.py means that the event is a dict
    whose [Records] entry was iterated and that every record visited, in
    order, made exactly three requests: the download of the object it
    names, the upload of the thumbnail under its derived key, and the
    success notification; nothing else was requested. *)
Theorem lam_ok_means_every_record_done (e : env) (event : pyval) (tr tr' : trace) (r : response) :
  lam_handler e event tr = (tr', Ok r) -> statusCode r = 200 ->
  exists d rv items segs, event = PDict d /\ assoc "Records" d = Some rv /\
    py_iter rv tr = (tr, Ok items) /\
    Forall2 (lam_record_segment e) items segs /\ tr' = tr ++ concat segs.
Proof.
  intros H Hs. unfold lam_handler, try_except in H.
  destruct (lam_main e event tr) as [tr1 [r1 | err]] eqn:Hm.
  - injection H as -> ->. unfold lam_main in Hm.
    apply bind_ok_inv in Hm as [rv [t1 [G1 Hm]]].
    apply bind_ok_inv in Hm as [items [t2 [G2 Hm]]].
    apply bind_ok_inv in Hm as [[] [t3 [G3 Hm]]].
    apply getitem_ok_trace in G1 as E1. subst t1.
    apply getitem_ok_inv in G1 as [d [-> Hd]].
    assert (E2 : t2 = tr) by (destruct rv; simpl in G2; inversion G2; reflexivity). subst t2.
    unfold ret in Hm. injection Hm as -> _.
    destruct (for_each_ok_segments (lam_process e) (lam_record_segment e) items
                (fun x t t' _ Hx => lam_process_ok_segment e x t t' Hx) tr tr' G3)
      as [segs [Hsegs ->]].
    exists d, rv, items, segs. auto.
  - unfold lam_fatal, bind, ret in H.
    destruct (publish e (LError err) tr1) as [t [[] | err']]; [| discriminate H].
    injection H as _ <-. discriminate Hs.
Qed.

Lemma lam_ok_means_every_record_done_witness :
  let e := sample_env "none" rejects_none photo in
  let event := s3_event [s3_record "src" "a.png"; s3_record "src" "b.png"] in
  lam_handler e event [] = (fst (lam_handler e event []), Ok (mkResponse 200 (PStr "Thumbnails generated successfully!"))) /\
  exists d rv items segs, event = PDict d /\ assoc "Records" d = Some rv /\
    py_iter rv [] = ([], Ok items) /\
    Forall2 (lam_record_segment e) items segs /\ fst (lam_handler e event []) = [] ++ concat segs.
Proof.
  intros e event.
  assert (Hrun : lam_handler e event [] =
                 (fst (lam_handler e event []), Ok (mkResponse 200 (PStr "Thumbnails generated successfully!"))))
    by (vm_compute; reflexivity).
  split; [exact Hrun |].
  exact (lam_ok_means_every_record_done e event [] _ _ Hrun eq_refl).
Defined.

(* ------------------------------------------------------------------ *)
(** ** Events whose records cannot be iterated *)

(** Extra: when the event is not a dict, or its [Records] entry is
    present but is null, a boolean or a number, neither handler reaches a
    record. src/docs/lambda-function.py sends one critical notification
    and answers 500 (AttributeError for a non-dict event, TypeError
    otherwise: [.get('Records', [])] does not replace a present null).
    src/lamcode.py sends one error notification with TypeError and
    answers 500 when SNS accepts it, and raises SNS's error otherwise. *)
Theorem unusable_records_fatal (e : env) (event : pyval) (tr : trace) :
  records_unusable event = true ->
  let err := match event with PDict _ => TypeError | _ => AttributeError end in
  docs_handler e event tr =
    (tr ++ [Publish (NCritical err)], Ok (mkResponse 500 (docs_error_body e err))) /\
  lam_handler e event tr =
    (tr ++ [Publish (LError TypeError)],
     match sns_publish e tr (LError TypeError) with
     | None => Ok (mkResponse 500 (PStr ("Error: " ++ exn_str TypeError)))
     | Some x => Raise x
     end).
Proof.
  intros Hu err.
  assert (Hd : docs_main e event tr = (tr, Raise err)).
  { subst err. destruct event as [| | | | | d]; try reflexivity.
    simpl in Hu. unfold docs_main, dict_get, bind, ret.
    destruct (assoc "Records" d) as [[| | | | |] |]; try discriminate Hu; reflexivity. }
  assert (Hl : lam_main e event tr = (tr, Raise TypeError)).
  { destruct event as [| | | | | d]; try reflexivity.
    simpl in Hu. unfold lam_main, getitem, bind, ret.
    destruct (assoc "Records" d) as [[| | | | |] |]; try discriminate Hu; reflexivity. }
  split.
  - unfold docs_handler. rewrite (try_except_raise _ _ _ _ _ Hd). apply docs_fatal_result.
  - unfold lam_handler. rewrite (try_except_raise _ _ _ _ _ Hl).
    unfold lam_fatal, publish, bind, ret. destruct (sns_publish e tr (LError TypeError)); reflexivity.
Qed.

Lemma unusable_records_fatal_witness :
  let e := sample_env "none" rejects_none photo in
  records_unusable (PDict [("Records", PNone)]) = true /\
  docs_handler e (PDict [("Records", PNone)]) [] =
    ([] ++ [Publish (NCritical TypeError)], Ok (mkResponse 500 (docs_error_body e TypeError))) /\
  lam_handler e (PDict [("Records", PNone)]) [] =
    ([] ++ [Publish (LError TypeError)],
     match sns_publish e [] (LError TypeError) with
     | None => Ok (mkResponse 500 (PStr ("Error: " ++ exn_str TypeError)))
     | Some x => Raise x
     end).
Proof.
  intro e. split; [reflexivity |].
  exact (unusable_records_fatal e (PDict [("Records", PNone)]) [] eq_refl).
Defined.
